(** * StratovaBuilds: the lead form and the book-a-call endpoint

    A shallow embedding of the lead-capture pipeline of the repository:
    the form helpers and the [LeadForm] component of the landing page
    (phone mask, validation, readiness, submit handler) and the [POST]
    handler of [src/app/api/book-call/route.ts].

    JavaScript strings are sequences of UTF-16 code units; they are
    modelled as lists of code units.  Every statement below that
    quantifies over strings therefore covers all strings the program
    can hold. *)

From Stdlib Require Import List NArith Bool Arith Lia.
From Stdlib Require String Ascii.
Import ListNotations String.StringSyntax Ascii.AsciiSyntax.
Delimit Scope string_scope with string.
Delimit Scope char_scope with char.

Set Implicit Arguments.

(** ** JavaScript strings *)

Module JS.

Definition jsstring := list N.

(** An ASCII literal of the source, as code units. *)
Definition lit (s : String.string) : jsstring :=
  List.map Ascii.N_of_ascii (String.list_ascii_of_string s).
Arguments lit s%_string.

Definition eqb (a b : jsstring) : bool :=
  if list_eq_dec N.eq_dec a b then true else false.

(** ECMAScript WhiteSpace and LineTerminator code points: what
    [String.prototype.trim] strips and what [\s] matches. *)
Definition isWhiteSpace (c : N) : bool :=
  ((9 <=? c) && (c <=? 13)          (* TAB LF VT FF CR *)
   || (c =? 32)                      (* SPACE *)
   || (c =? 160)                     (* NBSP *)
   || (c =? 5760)                    (* U+1680 *)
   || ((8192 <=? c) && (c <=? 8202)) (* U+2000 .. U+200A *)
   || (c =? 8232) || (c =? 8233)     (* U+2028 U+2029 *)
   || (c =? 8239)                    (* U+202F *)
   || (c =? 8287)                    (* U+205F *)
   || (c =? 12288)                   (* U+3000 *)
   || (c =? 65279))%N.               (* U+FEFF *)

(** Line terminators: the characters [.] does not match. *)
Definition isLineTerminator (c : N) : bool :=
  ((c =? 10) || (c =? 13) || (c =? 8232) || (c =? 8233))%N.

(** [\d] *)
Definition isDigit (c : N) : bool := ((48 <=? c) && (c <=? 57))%N.

Fixpoint trimStart (s : jsstring) : jsstring :=
  match s with
  | [] => []
  | c :: r => if isWhiteSpace c then trimStart r else s
  end.

Definition trimEnd (s : jsstring) : jsstring := rev (trimStart (rev s)).

(** [s.trim()] *)
Definition trim (s : jsstring) : jsstring := trimEnd (trimStart s).

(** Truthiness of a string: non-empty. *)
Definition truthy (s : jsstring) : bool :=
  match s with [] => false | _ => true end.

(** [s.slice(a, b)] for [0 <= a <= b], and [s.slice(a)]. *)
Definition slice (a b : nat) (s : jsstring) : jsstring :=
  firstn (b - a) (skipn a s).
Definition sliceFrom (a : nat) (s : jsstring) : jsstring := skipn a s.

(** [lines.join(sep)] *)
Fixpoint join (sep : jsstring) (l : list jsstring) : jsstring :=
  match l with
  | [] => []
  | [x] => x
  | x :: r => x ++ sep ++ join sep r
  end.

(** *** Exceptions

    A thrown value is observed by the source only through
    [error instanceof Error] and [error.message]. *)

Inductive Thrown : Type :=
| ErrorInstance (message : jsstring)
| NotAnError.

(** The outcome of evaluating an expression or awaiting a promise. *)
Inductive Completion (A : Type) : Type :=
| Normal (a : A)
| Throw (t : Thrown).
Arguments Normal {A} a.
Arguments Throw {A} t.

(** *** Regular expressions

    The patterns of the source use no captures, look-around or
    back-references, so [RegExp.prototype.test] decides membership in
    the language of the pattern; it is computed here with derivatives. *)

Inductive regex : Type :=
| Fail
| Eps
| Class (p : N -> bool)
| Cat (r s : regex)
| Alt (r s : regex)
| Star (r : regex).

Definition Chr (c : Ascii.ascii) : regex :=
  Class (N.eqb (Ascii.N_of_ascii c)).
Arguments Chr c%_char.
(** A letter under the [i] flag (no [u] flag): for an ASCII letter the
    canonicalisation only identifies its two cases. *)
Definition ChrI (lower upper : Ascii.ascii) : regex :=
  Class (fun c => N.eqb (Ascii.N_of_ascii lower) c
                  || N.eqb (Ascii.N_of_ascii upper) c).
Arguments ChrI (lower upper)%_char.
Definition Plus (r : regex) : regex := Cat r (Star r).
Definition Opt (r : regex) : regex := Alt r Eps.

Fixpoint nullable (r : regex) : bool :=
  match r with
  | Fail => false
  | Eps => true
  | Class _ => false
  | Cat r s => nullable r && nullable s
  | Alt r s => nullable r || nullable s
  | Star _ => true
  end.

Fixpoint deriv (c : N) (r : regex) : regex :=
  match r with
  | Fail => Fail
  | Eps => Fail
  | Class p => if p c then Eps else Fail
  | Cat r s =>
      if nullable r then Alt (Cat (deriv c r) s) (deriv c s)
      else Cat (deriv c r) s
  | Alt r s => Alt (deriv c r) (deriv c s)
  | Star r => Cat (deriv c r) (Star r)
  end.

(** [/^r$/.test(s)] *)
Fixpoint test_anchored (r : regex) (s : jsstring) : bool :=
  match s with
  | [] => nullable r
  | c :: s' => test_anchored (deriv c r) s'
  end.

(** [/^r/.test(s)]: some prefix of [s] matches. *)
Fixpoint test_prefix (r : regex) (s : jsstring) : bool :=
  nullable r ||
  match s with
  | [] => false
  | c :: s' => test_prefix (deriv c r) s'
  end.

End JS.

Import JS.

(** ** The landing page: form helpers and the [LeadForm] component *)

Module Page.

Record FormValues : Type := {
  fullName : jsstring;
  phoneNumber : jsstring;
  email : jsstring;
  storeUrl : jsstring;
  revenueStream : jsstring;
  message : jsstring;
}.

(** [keyof FormValues] *)
Inductive FieldKey : Type :=
| Key_fullName | Key_phoneNumber | Key_email
| Key_storeUrl | Key_revenueStream | Key_message.

Definition FieldKey_eqb (a b : FieldKey) : bool :=
  match a, b with
  | Key_fullName, Key_fullName | Key_phoneNumber, Key_phoneNumber
  | Key_email, Key_email | Key_storeUrl, Key_storeUrl
  | Key_revenueStream, Key_revenueStream | Key_message, Key_message => true
  | _, _ => false
  end.

(** [Partial<Record<keyof FormValues, string>>]: an object whose own
    keys are kept in insertion order; a key may be bound to [undefined]
    ([None]), as [handleChange] does. *)
Definition FormErrors := list (FieldKey * option jsstring).

Fixpoint obj_set (k : FieldKey) (v : option jsstring) (o : FormErrors)
  : FormErrors :=
  match o with
  | [] => [(k, v)]
  | (k', v') :: r =>
      if FieldKey_eqb k k' then (k, v) :: r else (k', v') :: obj_set k v r
  end.

Fixpoint obj_get (k : FieldKey) (o : FormErrors) : option jsstring :=
  match o with
  | [] => None
  | (k', v') :: r => if FieldKey_eqb k k' then v' else obj_get k r
  end.

(** [Object.keys(o)] *)
Definition Object_keys (o : FormErrors) : list FieldKey := List.map fst o.

Definition initialFormValues : FormValues := {|
  fullName := []; phoneNumber := []; email := [];
  storeUrl := []; revenueStream := []; message := [];
|}.

(** [value.replace(/\D/g, "").slice(0, 10)] *)
Definition getPhoneDigits (value : jsstring) : jsstring :=
  slice 0 10 (filter isDigit value).

Definition formatPhoneNumber (value : jsstring) : jsstring :=
  let digits := getPhoneDigits value in
  if length digits <=? 3 then digits
  else if length digits <=? 6 then
    lit "(" ++ slice 0 3 digits ++ lit ") " ++ sliceFrom 3 digits
  else
    lit "(" ++ slice 0 3 digits ++ lit ") " ++ slice 3 6 digits
      ++ lit "-" ++ slice 6 10 digits.

(** The mask as the specification words it, relating a digit string
    to its rendering: up to 3 digits unmasked, 4 to 6 digits as
    [(AAA) B..], 7 to 10 digits as [(AAA) BBB-C..]. *)
Inductive PhoneMask : jsstring -> jsstring -> Prop :=
| mask_plain (d : jsstring) :
    length d <= 3 -> PhoneMask d d
| mask_area (a b : jsstring) :
    length a = 3 -> 1 <= length b <= 3 ->
    PhoneMask (a ++ b) (lit "(" ++ a ++ lit ") " ++ b)
| mask_full (a b c : jsstring) :
    length a = 3 -> length b = 3 -> 1 <= length c <= 4 ->
    PhoneMask (a ++ b ++ c)
              (lit "(" ++ a ++ lit ") " ++ b ++ lit "-" ++ c).

(** [[^\s@]] *)
Definition notSpaceNorAt : regex :=
  Class (fun c => negb (isWhiteSpace c || N.eqb c (Ascii.N_of_ascii "@"))).

(** [.] *)
Definition anyChar : regex := Class (fun c => negb (isLineTerminator c)).

(** [/^[^\s@]+@[^\s@]+\.[^\s@]+$/] *)
Definition email_re : regex :=
  Cat (Plus notSpaceNorAt)
   (Cat (Chr "@")
    (Cat (Plus notSpaceNorAt)
     (Cat (Chr ".") (Plus notSpaceNorAt)))).

(** [/^https?:\/\/.+/i] *)
Definition storeUrl_re : regex :=
  Cat (ChrI "h" "H")
   (Cat (ChrI "t" "T")
    (Cat (ChrI "t" "T")
     (Cat (ChrI "p" "P")
      (Cat (Opt (ChrI "s" "S"))
       (Cat (Chr ":")
        (Cat (Chr "/")
         (Cat (Chr "/") (Plus anyChar)))))))).

Definition isValidEmail (value : jsstring) : bool :=
  test_anchored email_re (trim value).

Definition isValidStoreUrl (value : jsstring) : bool :=
  test_prefix storeUrl_re (trim value).

Definition validateForm (values : FormValues) : FormErrors :=
  let errors : FormErrors := [] in
  let errors :=
    if negb (truthy (trim (fullName values)))
    then obj_set Key_fullName (Some (lit "Full name is required.")) errors
    else errors in
  let errors :=
    if negb (truthy (trim (phoneNumber values)))
    then obj_set Key_phoneNumber (Some (lit "Phone number is required.")) errors
    else if negb (length (getPhoneDigits (phoneNumber values)) =? 10)
    then obj_set Key_phoneNumber
           (Some (lit "Enter a valid 10-digit phone number.")) errors
    else errors in
  let errors :=
    if negb (truthy (trim (email values)))
    then obj_set Key_email (Some (lit "Email is required.")) errors
    else if negb (isValidEmail (email values))
    then obj_set Key_email (Some (lit "Please enter a valid email.")) errors
    else errors in
  let errors :=
    if truthy (trim (storeUrl values)) && negb (isValidStoreUrl (storeUrl values))
    then obj_set Key_storeUrl
           (Some (lit "Use a full URL, including https://")) errors
    else errors in
  let errors :=
    if negb (truthy (revenueStream values))
    then obj_set Key_revenueStream
           (Some (lit "Select your revenue stream.")) errors
    else errors in
  errors.

(** The [isFormReady] constant of [LeadForm], as a function of the
    [values] it is computed from on each render. *)
Definition isFormReady (values : FormValues) : bool :=
  (0 <? length (trim (fullName values)))
  && (length (getPhoneDigits (phoneNumber values)) =? 10)
  && isValidEmail (email values)
  && (negb (truthy (trim (storeUrl values)))
      || isValidStoreUrl (storeUrl values))
  && (0 <? length (trim (revenueStream values))).

(** [{ ...prev, [key]: nextValue }] *)
Definition setValue (key : FieldKey) (nextValue : jsstring)
    (prev : FormValues) : FormValues :=
  match key with
  | Key_fullName =>
      {| fullName := nextValue; phoneNumber := phoneNumber prev;
         email := email prev; storeUrl := storeUrl prev;
         revenueStream := revenueStream prev; message := message prev |}
  | Key_phoneNumber =>
      {| fullName := fullName prev; phoneNumber := nextValue;
         email := email prev; storeUrl := storeUrl prev;
         revenueStream := revenueStream prev; message := message prev |}
  | Key_email =>
      {| fullName := fullName prev; phoneNumber := phoneNumber prev;
         email := nextValue; storeUrl := storeUrl prev;
         revenueStream := revenueStream prev; message := message prev |}
  | Key_storeUrl =>
      {| fullName := fullName prev; phoneNumber := phoneNumber prev;
         email := email prev; storeUrl := nextValue;
         revenueStream := revenueStream prev; message := message prev |}
  | Key_revenueStream =>
      {| fullName := fullName prev; phoneNumber := phoneNumber prev;
         email := email prev; storeUrl := storeUrl prev;
         revenueStream := nextValue; message := message prev |}
  | Key_message =>
      {| fullName := fullName prev; phoneNumber := phoneNumber prev;
         email := email prev; storeUrl := storeUrl prev;
         revenueStream := revenueStream prev; message := nextValue |}
  end.

(** The five [useState] cells of one [LeadForm] instance. *)
Record LeadFormState : Type := {
  values : FormValues;
  errors : FormErrors;
  isSubmitting : bool;
  submitted : bool;
  submitError : option jsstring;
}.

Definition initialState : LeadFormState := {|
  values := initialFormValues;
  errors := [];
  isSubmitting := false;
  submitted := false;
  submitError := None;
|}.

Definition handleChange (key : FieldKey) (value : jsstring)
    (st : LeadFormState) : LeadFormState :=
  let nextValue :=
    match key with
    | Key_phoneNumber => formatPhoneNumber value
    | _ => value
    end in
  {| values := setValue key nextValue (values st);
     errors := obj_set key None (errors st);
     isSubmitting := isSubmitting st;
     submitted := submitted st;
     submitError := None |}.

(** *** The request and what [fetch] gives back *)

Record FetchRequest : Type := {
  url : jsstring;
  method : jsstring;
  contentType : jsstring;
  body : FormValues;            (* [JSON.stringify(values)] *)
}.

(** The body of an error response as the source types it:
    [{ error?: string } | null]. *)
Record ErrorPayload : Type := { error : option jsstring }.

Record HttpResponse : Type := {
  ok : bool;                                     (* [response.ok] *)
  json : Completion (option ErrorPayload);       (* [await response.json()] *)
}.

(** [await fetch(...)]: a response, or a rejection when no response
    is received. *)
Definition FetchOutcome := Completion HttpResponse.

(** [handleSubmit] up to its [await]: validation, and when it passes
    the flag is raised and the request is issued. *)
Definition handleSubmit_begin (st : LeadFormState)
  : LeadFormState * option FetchRequest :=
  let validationErrors := validateForm (values st) in
  let st1 := {| values := values st; errors := validationErrors;
                isSubmitting := isSubmitting st; submitted := submitted st;
                submitError := submitError st |} in
  if 0 <? length (Object_keys validationErrors) then (st1, None)
  else
    ({| values := values st1; errors := errors st1;
        isSubmitting := true; submitted := submitted st1;
        submitError := None |},
     Some {| url := lit "/api/book-call"; method := lit "POST";
             contentType := lit "application/json"; body := values st |}).

(** [handleSubmit] from the point where the [fetch] promise settles:
    the rest of the [try] block, the [catch] and the [finally].  [st]
    is the state the setters act on. *)
Definition handleSubmit_settle (o : FetchOutcome) (st : LeadFormState)
  : LeadFormState :=
  let tried : Completion LeadFormState :=
    match o with
    | Throw t => Throw t
    | Normal response =>
        if negb (ok response) then
          let payload :=
            match json response with
            | Normal p => p
            | Throw _ => None           (* [.catch(() => null)] *)
            end in
          let text :=
            match payload with
            | Some {| error := Some e |} =>
                if truthy e then e else lit "Request failed"
            | _ => lit "Request failed"
            end in
          Throw (ErrorInstance text)
        else
          Normal {| values := initialFormValues; errors := errors st;
                    isSubmitting := isSubmitting st; submitted := true;
                    submitError := submitError st |}
    end in
  let caught : LeadFormState :=
    match tried with
    | Normal st' => st'
    | Throw error =>
        let message :=
          match error with
          | ErrorInstance m => m
          | NotAnError =>
              lit "Something went wrong. Please try again in a moment."
          end in
        {| values := values st; errors := errors st;
           isSubmitting := isSubmitting st; submitted := submitted st;
           submitError := Some message |}
    end in
  {| values := values caught; errors := errors caught;
     isSubmitting := false; submitted := submitted caught;
     submitError := submitError caught |}.

(** One whole run of [handleSubmit] against a given [fetch]. *)
Definition handleSubmit (fetch : FetchRequest -> FetchOutcome)
    (st : LeadFormState) : LeadFormState :=
  match handleSubmit_begin st with
  | (st1, None) => st1
  | (st1, Some request) => handleSubmit_settle (fetch request) st1
  end.

(** *** The rendered form as a transition system

    Between two events React has re-rendered the component, so each
    handler sees the current state.  The browser dispatches a submit
    event only through the submit control, and only while the control
    is not [disabled]; once [submitted] is set the form is replaced by
    the thank-you panel. *)

(** [disabled={isSubmitting || !isFormReady}] *)
Definition submitDisabled (st : LeadFormState) : bool :=
  isSubmitting st || negb (isFormReady (values st)).

Definition submitOffered (st : LeadFormState) : bool :=
  negb (submitted st) && negb (submitDisabled st).

Record UI : Type := {
  form : LeadFormState;
  inflight : nat;       (* requests issued and not yet settled *)
}.

Definition initialUI : UI := {| form := initialState; inflight := 0 |}.

Definition issued (r : option FetchRequest) : nat :=
  match r with Some _ => 1 | None => 0 end.

(** The three kinds of event: an edit of a field, a submit of the
    form, and the settling of a pending [fetch]. *)
Definition onChange (key : FieldKey) (value : jsstring) (ui : UI) : UI :=
  {| form := handleChange key value (form ui); inflight := inflight ui |}.

Definition onSubmit (ui : UI) : UI :=
  {| form := fst (handleSubmit_begin (form ui));
     inflight := inflight ui + issued (snd (handleSubmit_begin (form ui))) |}.

Definition onSettle (o : FetchOutcome) (ui : UI) : UI :=
  {| form := handleSubmit_settle o (form ui);
     inflight := pred (inflight ui) |}.

Inductive step : UI -> UI -> Prop :=
| step_change (key : FieldKey) (value : jsstring) (ui : UI) :
    submitted (form ui) = false ->
    step ui (onChange key value ui)
| step_submit (ui : UI) :
    submitOffered (form ui) = true ->
    step ui (onSubmit ui)
| step_settle (o : FetchOutcome) (ui : UI) :
    0 < inflight ui ->
    step ui (onSettle o ui).

(** The guard: requests in flight and the flag go together. *)
Definition guarded (ui : UI) : Prop :=
  (inflight ui = 0 /\ isSubmitting (form ui) = false)
  \/ (inflight ui = 1 /\ isSubmitting (form ui) = true).

Inductive reachable : UI -> Prop :=
| reachable_init : reachable initialUI
| reachable_step (ui ui' : UI) :
    reachable ui -> step ui ui' -> reachable ui'.

End Page.

(** ** The endpoint: [POST /api/book-call] *)

Module Route.

(** A value produced by [JSON.parse], or [undefined] where a property
    is missing.  The handler never looks inside a number, which is
    kept as the numeral of the JSON text. *)
#[local] Unset Elimination Schemes.
Inductive JsValue : Type :=
| JUndefined
| JNull
| JBool (b : bool)
| JNumber (numeral : jsstring)
| JString (s : jsstring)
| JArray (items : list JsValue)
| JObject (props : list (jsstring * JsValue)).
#[local] Set Elimination Schemes.

Fixpoint lookup (name : jsstring) (props : list (jsstring * JsValue))
  : JsValue :=
  match props with
  | [] => JUndefined
  | (k, v) :: r => if JS.eqb name k then v else lookup name r
  end.

(** The messages of the two [TypeError]s the handler can provoke are
    chosen by the JavaScript engine. *)
Record Engine : Type := {
  cannotReadProperty : jsstring -> jsstring;   (* [null.name] *)
  notAFunction : jsstring -> jsstring;         (* [value.trim()], no [trim] *)
}.

(** [body.name], for the six field names of [LeadPayload] (none of
    which is a property of a primitive wrapper, of [Array.prototype]
    or of [Object.prototype]). *)
Definition getField (eng : Engine) (body : JsValue) (name : jsstring)
  : Completion JsValue :=
  match body with
  | JUndefined | JNull => Throw (ErrorInstance (cannotReadProperty eng name))
  | JObject props => Normal (lookup name props)
  | _ => Normal JUndefined
  end.

(** [body.name?.trim() ?? ""] *)
Definition trimmedField (eng : Engine) (body : JsValue) (name : jsstring)
  : Completion jsstring :=
  match getField eng body name with
  | Throw t => Throw t
  | Normal JUndefined | Normal JNull => Normal []
  | Normal (JString s) => Normal (trim s)
  | Normal _ => Throw (ErrorInstance (notAFunction eng name))
  end.

(** The argument of [resend.emails.send]. *)
Record Email : Type := {
  from : jsstring;
  to : list jsstring;
  subject : jsstring;
  replyTo : jsstring;
  text : jsstring;
  html : jsstring;
}.

(** What the relay resolves to: [{ error }], with [error] null on
    success and an object with a [message] otherwise. *)
Record RelayError : Type := { message : JsValue }.
Record SendResult : Type := { error : option RelayError }.

(** The server process: its environment, its engine, and the relay
    client constructed from an API key. *)
Record Server : Type := {
  RESEND_API_KEY : option jsstring;
  NEXT_PUBLIC_RESEND_API_KEY : option jsstring;
  engine : Engine;
  resend_emails_send : jsstring -> Email -> Completion SendResult;
}.

(** What the handler does to the outside, in order. *)
Inductive Effect : Type :=
| ReadBody                                  (* [request.json()] *)
| RelaySend (apiKey : jsstring) (mail : Email).

Inductive ResponseBody : Type :=
| ErrorBody (error : jsstring)              (* [{ error: ... }] *)
| SuccessBody.                              (* [{ success: true }] *)

Record Response : Type := { status : nat; json : ResponseBody }.

(** [NextResponse.json(body, { status })]; the status defaults to 200. *)
Definition NextResponse_json (body : ResponseBody) (st : option nat)
  : Response :=
  {| status := match st with Some n => n | None => 200 end; json := body |}.

(** The body of the [try] block runs in a monad that records the
    effects and stops at the first exception. *)
Definition M (A : Type) : Type := (list Effect * Completion A)%type.

Definition ret {A} (a : A) : M A := ([], Normal a).

Definition bind {A B} (m : M A) (f : A -> M B) : M B :=
  match m with
  | (t, Throw e) => (t, Throw e)
  | (t, Normal a) => let (t', r) := f a in (t ++ t', r)
  end.

Definition lift {A} (c : Completion A) : M A := ([], c).

Definition perform {A} (e : Effect) (c : Completion A) : M A := ([e], c).

Notation "x <- m ;; k" := (bind m (fun x => k))
  (at level 61, m at next level, right associativity).

(** [a || b] on two environment variables; [None] when the result is
    falsy ([undefined] or the empty string). *)
Definition resendApiKey (srv : Server) : option jsstring :=
  match RESEND_API_KEY srv with
  | Some (c :: k) => Some (c :: k)
  | _ =>
      match NEXT_PUBLIC_RESEND_API_KEY srv with
      | Some (c :: k) => Some (c :: k)
      | _ => None
      end
  end.

Definition nl : jsstring := [10%N].

Definition orElse (s fallback : jsstring) : jsstring :=
  if truthy s then s else fallback.

Definition mailFor (fullName phoneNumber email storeUrl revenueStream
                    message : jsstring) : Email :=
  let toEmail := lit "timothytitenokspam@gmail.com" in
  let fromEmail := lit "onboarding@resend.dev" in
  {| from := fromEmail;
     to := [toEmail];
     subject := lit "New Stratova call request: " ++ fullName;
     replyTo := email;
     text := join nl
       [ lit "New book a call request";
         lit "Full name: " ++ fullName;
         lit "Phone number: " ++ phoneNumber;
         lit "Email: " ++ email;
         lit "Store URL: "
           ++ orElse storeUrl (lit "N/A (needs build from scratch)");
         lit "Revenue stream: " ++ revenueStream;
         lit "Message: " ++ orElse message (lit "N/A") ];
     html :=
       nl ++ lit "        <h2>New book a call request</h2>" ++ nl
       ++ lit "        <p><strong>Full name:</strong> " ++ fullName
       ++ lit "</p>" ++ nl
       ++ lit "        <p><strong>Phone number:</strong> " ++ phoneNumber
       ++ lit "</p>" ++ nl
       ++ lit "        <p><strong>Email:</strong> " ++ email
       ++ lit "</p>" ++ nl
       ++ lit "        <p><strong>Store URL:</strong> "
       ++ orElse storeUrl (lit "N/A (needs build from scratch)")
       ++ lit "</p>" ++ nl
       ++ lit "        <p><strong>Revenue stream:</strong> " ++ revenueStream
       ++ lit "</p>" ++ nl
       ++ lit "        <p><strong>Message:</strong> "
       ++ orElse message (lit "N/A")
       ++ lit "</p>" ++ nl
       ++ lit "      " |}.

Definition notConfigured : Response :=
  NextResponse_json
    (ErrorBody (lit "Email service is not configured. Set RESEND_API_KEY in your server environment."))
    (Some 500).

Definition missingFields : Response :=
  NextResponse_json (ErrorBody (lit "Missing required fields.")) (Some 400).

(** The message put after [Resend error: ]. *)
Definition resendErrorMessage (e : RelayError) : jsstring :=
  match message e with
  | JString (c :: m) => c :: m
  | _ => lit "Unable to send email."
  end.

(** The [try] block of [POST]; [request_json] is what
    [await request.json()] settles to. *)
Definition POST_try (srv : Server) (request_json : Completion JsValue)
  : M Response :=
  match resendApiKey srv with
  | None => ret notConfigured
  | Some key =>
      body <- perform ReadBody request_json ;;
      fullName <- lift (trimmedField (engine srv) body (lit "fullName")) ;;
      phoneNumber <- lift (trimmedField (engine srv) body (lit "phoneNumber")) ;;
      email <- lift (trimmedField (engine srv) body (lit "email")) ;;
      storeUrl <- lift (trimmedField (engine srv) body (lit "storeUrl")) ;;
      revenueStream <-
        lift (trimmedField (engine srv) body (lit "revenueStream")) ;;
      message <- lift (trimmedField (engine srv) body (lit "message")) ;;
      if negb (truthy fullName) || negb (truthy phoneNumber)
         || negb (truthy email) || negb (truthy revenueStream)
      then ret missingFields
      else
        let mail :=
          mailFor fullName phoneNumber email storeUrl revenueStream message in
        result <- perform (RelaySend key mail)
                          (resend_emails_send srv key mail) ;;
        match error result with
        | Some e =>
            ret (NextResponse_json
                   (ErrorBody (lit "Resend error: " ++ resendErrorMessage e))
                   (Some 502))
        | None => ret (NextResponse_json SuccessBody None)
        end
  end.

(** The [catch] block of [POST]. *)
Definition POST_catch (error : Thrown) : Response :=
  let message :=
    match error with
    | ErrorInstance m => m
    | NotAnError => lit "Unable to submit request."
    end in
  NextResponse_json (ErrorBody message) (Some 500).

(** [POST]: the response, and the effects in the order they occurred. *)
Definition POST (srv : Server) (request_json : Completion JsValue)
  : Response * list Effect :=
  match POST_try srv request_json with
  | (trace, Normal response) => (response, trace)
  | (trace, Throw error) => (POST_catch error, trace)
  end.

(** *** Vocabulary of the statements about the endpoint *)

(** An environment variable that is absent or empty. *)
Definition unset (v : option jsstring) : bool :=
  match v with
  | None | Some [] => true
  | Some (_ :: _) => false
  end.

Definition fieldNames : list jsstring :=
  [ lit "fullName"; lit "phoneNumber"; lit "email";
    lit "storeUrl"; lit "revenueStream"; lit "message" ].

Definition requiredNames : list jsstring :=
  [ lit "fullName"; lit "phoneNumber"; lit "email"; lit "revenueStream" ].

(** The value of a field of a body that is not [null]; [JUndefined]
    when the field is absent. *)
Definition fieldOf (body : JsValue) (name : jsstring) : JsValue :=
  match body with
  | JObject props => lookup name props
  | _ => JUndefined
  end.

Definition optionalString (v : JsValue) : bool :=
  match v with
  | JUndefined | JNull | JString _ => true
  | _ => false
  end.

(** A body of the shape [LeadPayload] promises: not [null], and each
    of the six fields absent, [null] or a string. *)
Definition isLeadPayload (body : JsValue) : bool :=
  match body with
  | JUndefined | JNull => false
  | _ => forallb (fun name => optionalString (fieldOf body name)) fieldNames
  end.

(** A field that is absent ([null] included) or empty after trim. *)
Definition absentOrBlank (v : JsValue) : bool :=
  match v with
  | JUndefined | JNull => true
  | JString s => negb (truthy (trim s))
  | _ => false
  end.

Definition missingRequired (body : JsValue) : bool :=
  existsb (fun name => absentOrBlank (fieldOf body name)) requiredNames.

Definition trimmed (v : JsValue) : jsstring :=
  match v with
  | JString s => trim s
  | _ => []
  end.

(** The mail built from the trimmed fields of a body. *)
Definition mailOf (body : JsValue) : Email :=
  mailFor (trimmed (fieldOf body (lit "fullName")))
          (trimmed (fieldOf body (lit "phoneNumber")))
          (trimmed (fieldOf body (lit "email")))
          (trimmed (fieldOf body (lit "storeUrl")))
          (trimmed (fieldOf body (lit "revenueStream")))
          (trimmed (fieldOf body (lit "message"))).

(** What the handler answers once the relay call has settled. *)
Definition afterRelay (sent : Completion SendResult) : Response :=
  match sent with
  | Throw t => POST_catch t
  | Normal {| error := Some e |} =>
      {| status := 502;
         json := ErrorBody (lit "Resend error: " ++ resendErrorMessage e) |}
  | Normal {| error := None |} => {| status := 200; json := SuccessBody |}
  end.

(** The handler under V8 (Node.js), whose messages are these. *)
Definition v8 : Engine := {|
  cannotReadProperty name :=
    lit "Cannot read properties of null (reading '" ++ name ++ lit "')";
  notAFunction name :=
    lit "body." ++ name ++ lit "?.trim is not a function";
|}.

Definition relayCalls (trace : list Effect) : list (jsstring * Email) :=
  flat_map (fun e => match e with
                     | RelaySend k m => [(k, m)]
                     | ReadBody => []
                     end) trace.

End Route.

(** ** The form submitting to the endpoint *)

Module Wire.

Import Route.

(** [JSON.stringify(values)] as [request.json()] reads it back: an
    object with the six properties, each a string. *)
Definition encode (v : Page.FormValues) : JsValue :=
  JObject
    [ (lit "fullName", JString (Page.fullName v));
      (lit "phoneNumber", JString (Page.phoneNumber v));
      (lit "email", JString (Page.email v));
      (lit "storeUrl", JString (Page.storeUrl v));
      (lit "revenueStream", JString (Page.revenueStream v));
      (lit "message", JString (Page.message v)) ].

(** The endpoint's response as the page's [fetch] presents it:
    [response.ok] is a status in 200..299. *)
Definition present (r : Response) : Page.HttpResponse :=
  {| Page.ok := (200 <=? status r) && (status r <=? 299);
     Page.json :=
       Normal (Some {| Page.error :=
                         match json r with
                         | ErrorBody m => Some m
                         | SuccessBody => None
                         end |}) |}.

(** A [fetch] that reaches the endpoint running on [srv]. *)
Definition fetch (srv : Server) (request : Page.FetchRequest)
  : Page.FetchOutcome :=
  Normal (present (fst (POST srv (Normal (encode (Page.body request)))))).

End Wire.

(** ** The language of a regular expression *)

Module Lang.

(** The strings a pattern matches in full. *)
Inductive Matches : regex -> jsstring -> Prop :=
| MEps : Matches Eps []
| MClass (p : N -> bool) (c : N) : p c = true -> Matches (Class p) [c]
| MCat (r s : regex) (u v : jsstring) :
    Matches r u -> Matches s v -> Matches (Cat r s) (u ++ v)
| MAltL (r s : regex) (u : jsstring) : Matches r u -> Matches (Alt r s) u
| MAltR (r s : regex) (u : jsstring) : Matches s u -> Matches (Alt r s) u
| MStar0 (r : regex) : Matches (Star r) []
| MStarS (r : regex) (u v : jsstring) :
    Matches r u -> Matches (Star r) v -> Matches (Star r) (u ++ v).

(** An ASCII capital letter as its small letter, any other code unit
    as itself. *)
Definition asciiFold (c : N) : N :=
  if ((65 <=? c) && (c <=? 90))%N then (c + 32)%N else c.

(** A character an e-mail part may hold: [[^\s@]]. *)
Definition plain (c : N) : bool :=
  negb (isWhiteSpace c || N.eqb c (Ascii.N_of_ascii "@")).

End Lang.

(** ** More of the landing page *)

Module Widgets.

Import Page.

(** [values[key]] *)
Definition getValue (key : FieldKey) (values : FormValues) : jsstring :=
  match key with
  | Key_fullName => fullName values
  | Key_phoneNumber => phoneNumber values
  | Key_email => email values
  | Key_storeUrl => storeUrl values
  | Key_revenueStream => revenueStream values
  | Key_message => message values
  end.

(** *** The [onKeyDown] handler of the phone field *)

Record KeyboardEvent : Type := {
  ctrlKey : bool;
  metaKey : bool;
  altKey : bool;
  key : jsstring;
}.

Definition allowedKeys : list jsstring :=
  [ lit "Backspace"; lit "Delete"; lit "ArrowLeft"; lit "ArrowRight";
    lit "Tab"; lit "Home"; lit "End" ].

(** [list.includes(k)] *)
Definition includes (list : list jsstring) (k : jsstring) : bool :=
  existsb (JS.eqb k) list.

(** [/^\d$/] *)
Definition digit_re : regex := Class isDigit.

(** Whether the handler calls [event.preventDefault()], given the
    [values] of the render it belongs to. *)
Definition onKeyDown (values : FormValues) (event : KeyboardEvent) : bool :=
  if ctrlKey event || metaKey event || altKey event
     || includes allowedKeys (key event)
  then false
  else if negb (test_anchored digit_re (key event)) then true
  else if 10 <=? length (getPhoneDigits (phoneNumber values)) then true
  else false.

(** *** [cn] *)

(** An argument of [cn]: [string | false | null | undefined]. *)
Inductive ClassValue : Type :=
| ClassName (s : jsstring)
| ClassFalse
| ClassNull
| ClassUndefined.

(** [Boolean(c)] *)
Definition Boolean (c : ClassValue) : bool :=
  match c with
  | ClassName s => truthy s
  | _ => false
  end.

(** The text [join] uses for an element; only strings are left after
    the filter. *)
Definition classText (c : ClassValue) : jsstring :=
  match c with
  | ClassName s => s
  | _ => []
  end.

(** [classes.filter(Boolean).join(" ")] *)
Definition cn (classes : list ClassValue) : jsstring :=
  join (lit " ") (List.map classText (filter Boolean classes)).

(** *** The revenue stream select *)

(** The values of the [<option>]s of the revenue stream [<select>],
    the only values its change events carry. *)
Definition revenueOptions : list jsstring :=
  [ lit ""; lit "$0 - $10k/mo"; lit "$10k - $50k/mo";
    lit "$50k - $250k/mo"; lit "$250k+/mo" ].

End Widgets.

(** ** The touch glow of [MobileTouchEffect] *)

Module Touch.

Section Glow.

(** [clientX] and [clientY] are only copied, never computed with. *)
Variable number : Type.

Record Glow : Type := { x : number; y : number; visible : bool }.

(** The two [useState] cells, and the [setTimeout] callbacks that
    have been scheduled and have not run yet. *)
Record State : Type := {
  glow : option Glow;
  isMobile : bool;
  timeouts : nat;
}.

Definition initial : State :=
  {| glow := None; isMobile := false; timeouts := 0 |}.

(** [e.touches[0]], when there is one. *)
Definition Touch0 : Type := option (number * number).

Definition handleTouchStart (touch : Touch0) (st : State) : State :=
  match touch with
  | None => st
  | Some (clientX, clientY) =>
      {| glow := Some {| x := clientX; y := clientY; visible := true |};
         isMobile := isMobile st; timeouts := timeouts st |}
  end.

Definition handleTouchMove (touch : Touch0) (st : State) : State :=
  match touch with
  | None => st
  | Some (clientX, clientY) =>
      {| glow :=
           match glow st with
           | Some prev =>
               Some {| x := clientX; y := clientY; visible := visible prev |}
           | None => None
           end;
         isMobile := isMobile st; timeouts := timeouts st |}
  end.

Definition handleTouchEnd (st : State) : State :=
  {| glow :=
       match glow st with
       | Some prev => Some {| x := x prev; y := y prev; visible := false |}
       | None => None
       end;
     isMobile := isMobile st;
     timeouts := S (timeouts st) |}.

Definition handleTouchCancel (st : State) : State :=
  {| glow := None; isMobile := isMobile st; timeouts := timeouts st |}.

Inductive Event : Type :=
| MediaMatches (matches : bool)     (* the media query is (re)evaluated *)
| TouchStart (touch : Touch0)
| TouchMove (touch : Touch0)
| TouchEnd
| TouchCancel
| Timeout.                          (* a scheduled callback runs *)

(** The touch listeners are registered only while [isMobile] is set;
    a scheduled callback runs whatever [isMobile] is. *)
Definition dispatch (st : State) (e : Event) : State :=
  match e with
  | MediaMatches m =>
      {| glow := glow st; isMobile := m; timeouts := timeouts st |}
  | TouchStart t => if isMobile st then handleTouchStart t st else st
  | TouchMove t => if isMobile st then handleTouchMove t st else st
  | TouchEnd => if isMobile st then handleTouchEnd st else st
  | TouchCancel => if isMobile st then handleTouchCancel st else st
  | Timeout =>
      match timeouts st with
      | 0 => st
      | S n => {| glow := None; isMobile := isMobile st; timeouts := n |}
      end
  end.

Definition run (events : list Event) : State :=
  fold_left dispatch events initial.

(** What the component renders: nothing unless [isMobile], else the
    glow if there is one. *)
Definition rendered (st : State) : option Glow :=
  if isMobile st then glow st else None.

End Glow.

End Touch.

(** ** Sample forms, servers and request bodies *)

Module Examples.

Import Route.

(** A filled-in form. *)
Definition readyLead : Page.FormValues := {|
  Page.fullName := lit "Ann Lee";
  Page.phoneNumber := lit "(555) 123-4567";
  Page.email := lit "ann@example.com";
  Page.storeUrl := lit "https://ann.example.com";
  Page.revenueStream := lit "$0 - $10k/mo";
  Page.message := lit "";
|}.

(** The form state holding [readyLead], and the page after that form
    was typed in and submitted, its request still pending. *)
Definition readyState : Page.LeadFormState := {|
  Page.values := readyLead;
  Page.errors := [];
  Page.isSubmitting := false;
  Page.submitted := false;
  Page.submitError := None;
|}.

Definition typedIn : Page.UI :=
  Page.onChange Page.Key_revenueStream (lit "$0 - $10k/mo")
   (Page.onChange Page.Key_storeUrl (lit "https://ann.example.com")
    (Page.onChange Page.Key_email (lit "ann@example.com")
     (Page.onChange Page.Key_phoneNumber (lit "5551234567")
      (Page.onChange Page.Key_fullName (lit "Ann Lee") Page.initialUI)))).

Definition pending : Page.UI := Page.onSubmit typedIn.

(** The same form with a revenue stream of a single space. *)
Definition blankRevenue : Page.FormValues :=
  Page.setValue Page.Key_revenueStream (lit " ") readyLead.

Definition relayOk (key : jsstring) (mail : Email) : Completion SendResult :=
  Normal {| error := None |}.

Definition relayFails (m : JsValue) (key : jsstring) (mail : Email)
  : Completion SendResult :=
  Normal {| error := Some {| message := m |} |}.

(** A server with the key under its server-side name. *)
Definition server (send : jsstring -> Email -> Completion SendResult)
  : Server := {|
  RESEND_API_KEY := Some (lit "re_server_key");
  NEXT_PUBLIC_RESEND_API_KEY := None;
  engine := v8;
  resend_emails_send := send;
|}.

(** A server with no key at all, and one with the key under the
    public-prefixed name only. *)
Definition bareServer : Server := {|
  RESEND_API_KEY := None;
  NEXT_PUBLIC_RESEND_API_KEY := Some [];
  engine := v8;
  resend_emails_send := relayOk;
|}.

Definition publicKeyServer : Server := {|
  RESEND_API_KEY := None;
  NEXT_PUBLIC_RESEND_API_KEY := Some (lit "re_public_key");
  engine := v8;
  resend_emails_send := relayOk;
|}.

(** Four required texts present, none of the client-side shapes met. *)
Definition shapelessLead : JsValue :=
  JObject
    [ (lit "fullName", JString (lit "Ann Lee"));
      (lit "phoneNumber", JString (lit "12345"));
      (lit "email", JString (lit "not-an-email"));
      (lit "storeUrl", JString (lit "my store"));
      (lit "revenueStream", JString (lit "plenty")) ].

(** [shapelessLead] with the number 5 as its store URL. *)
Definition numericStoreUrl : JsValue :=
  JObject
    [ (lit "fullName", JString (lit "Ann Lee"));
      (lit "phoneNumber", JString (lit "12345"));
      (lit "email", JString (lit "not-an-email"));
      (lit "storeUrl", JNumber (lit "5"));
      (lit "revenueStream", JString (lit "plenty")) ].

(** A blank full name, and the number 5 as the message. *)
Definition blankNameNumericMessage : JsValue :=
  JObject
    [ (lit "fullName", JString (lit "  "));
      (lit "message", JNumber (lit "5")) ].

End Examples.

(** ** More sample states and events *)

Module Samples.

(** The page once the pending request of [Examples.pending] has been
    answered 200. *)
Definition answered : Page.UI :=
  Page.onSettle
    (Normal {| Page.ok := true;
               Page.json := Normal (Some {| Page.error := None |}) |})
    Examples.pending.

(** A form with six digits typed into the phone field, and the key
    [4] pressed with no modifier. *)
Definition sixDigits : Page.FormValues :=
  Page.setValue Page.Key_phoneNumber (lit "(555) 123") Page.initialFormValues.

Definition keyFour : Widgets.KeyboardEvent := {|
  Widgets.ctrlKey := false;
  Widgets.metaKey := false;
  Widgets.altKey := false;
  Widgets.key := lit "4";
|}.

(** A [fetch] that must not be called. *)
Definition unreachableFetch (request : Page.FetchRequest)
  : Page.FetchOutcome :=
  Throw NotAnError.

End Samples.

(** * Properties *)

(** ** The helpers on sample inputs *)

Example trim_sample : trim (lit "  Ann Lee ") = lit "Ann Lee".
Proof. reflexivity. Qed.

Example getPhoneDigits_sample :
  Page.getPhoneDigits (lit "+1 (555) 123-4567 ext. 89") = lit "1555123456".
Proof. reflexivity. Qed.

Example formatPhoneNumber_samples :
  Page.formatPhoneNumber (lit "") = lit ""
  /\ Page.formatPhoneNumber (lit "555") = lit "555"
  /\ Page.formatPhoneNumber (lit "5551") = lit "(555) 1"
  /\ Page.formatPhoneNumber (lit "555123") = lit "(555) 123"
  /\ Page.formatPhoneNumber (lit "5551234") = lit "(555) 123-4"
  /\ Page.formatPhoneNumber (lit "5551234567") = lit "(555) 123-4567"
  /\ Page.formatPhoneNumber (lit "555-123-4567-8910") = lit "(555) 123-4567".
Proof. repeat split; reflexivity. Qed.

Example isValidEmail_samples :
  Page.isValidEmail (lit " ann@example.com ") = true
  /\ Page.isValidEmail (lit "ann@mail.example.com") = true
  /\ Page.isValidEmail (lit "ann@example") = false
  /\ Page.isValidEmail (lit "ann@@example.com") = false
  /\ Page.isValidEmail (lit "ann lee@example.com") = false
  /\ Page.isValidEmail (lit "@example.com") = false
  /\ Page.isValidEmail (lit "ann@example.") = false.
Proof. repeat split; reflexivity. Qed.

Example isValidStoreUrl_samples :
  Page.isValidStoreUrl (lit "https://ann.example.com") = true
  /\ Page.isValidStoreUrl (lit " HTTP://x y") = true
  /\ Page.isValidStoreUrl (lit "http://") = false
  /\ Page.isValidStoreUrl (lit "httpss://x") = false
  /\ Page.isValidStoreUrl (lit "ann.example.com") = false
  /\ Page.isValidStoreUrl (lit "see https://x") = false.
Proof. repeat split; reflexivity. Qed.

Example validateForm_sample :
  Page.validateForm Page.initialFormValues
  = [ (Page.Key_fullName, Some (lit "Full name is required."));
      (Page.Key_phoneNumber, Some (lit "Phone number is required."));
      (Page.Key_email, Some (lit "Email is required."));
      (Page.Key_revenueStream, Some (lit "Select your revenue stream.")) ]
  /\ Page.validateForm Examples.readyLead = []
  /\ Page.isFormReady Examples.readyLead = true
  /\ Page.isFormReady Page.initialFormValues = false.
Proof. repeat split; reflexivity. Qed.

Example POST_samples :
  Route.POST (Examples.server Examples.relayOk)
    (Throw (ErrorInstance (lit "Unexpected end of JSON input")))
  = ({| Route.status := 500;
        Route.json := Route.ErrorBody (lit "Unexpected end of JSON input") |},
     [Route.ReadBody])
  /\ Route.POST (Examples.server Examples.relayOk)
       (Normal (Route.JObject []))
     = (Route.missingFields, [Route.ReadBody])
  /\ Route.text (Route.mailOf (Wire.encode Examples.readyLead))
     = lit "New book a call request" ++ Route.nl
       ++ lit "Full name: Ann Lee" ++ Route.nl
       ++ lit "Phone number: (555) 123-4567" ++ Route.nl
       ++ lit "Email: ann@example.com" ++ Route.nl
       ++ lit "Store URL: https://ann.example.com" ++ Route.nl
       ++ lit "Revenue stream: $0 - $10k/mo" ++ Route.nl
       ++ lit "Message: N/A".
Proof. repeat split; reflexivity. Qed.

(** ** Strings *)

Section StringFacts.

Import Page.

Lemma isWhiteSpace_not_digit (c : N) :
  isWhiteSpace c = true -> isDigit c = false.
Proof.
  unfold isWhiteSpace, isDigit. intros H.
  destruct ((48 <=? c)%N && (c <=? 57)%N) eqn:E; [| reflexivity].
  rewrite andb_true_iff, !N.leb_le in E.
  rewrite !orb_true_iff, !andb_true_iff, !N.leb_le, !N.eqb_eq in H. lia.
Qed.

Lemma trimStart_nil (s : jsstring) :
  trimStart s = [] -> forallb isWhiteSpace s = true.
Proof.
  induction s as [| c r IH]; simpl; [reflexivity |].
  destruct (isWhiteSpace c); [exact IH | discriminate].
Qed.

Lemma trimStart_blank (s : jsstring) :
  forallb isWhiteSpace s = true -> trimStart s = [].
Proof.
  induction s as [| c r IH]; simpl; [reflexivity |].
  destruct (isWhiteSpace c); simpl; [exact IH | discriminate].
Qed.

Lemma trimStart_head (s : jsstring) :
  trimStart s = [] \/
  exists c r, trimStart s = c :: r /\ isWhiteSpace c = false.
Proof.
  induction s as [| c r IH]; simpl; [now left |].
  destruct (isWhiteSpace c) eqn:E; [exact IH |].
  right. now exists c, r.
Qed.

Lemma forallb_rev (A : Type) (p : A -> bool) (l : list A) :
  forallb p (rev l) = forallb p l.
Proof.
  induction l as [| a l IH]; simpl; [reflexivity |].
  rewrite forallb_app, IH. simpl. rewrite andb_true_r. apply andb_comm.
Qed.

(** [s.trim()] is empty exactly when [s] holds white space only. *)
Lemma trim_nil_iff (s : jsstring) :
  trim s = [] <-> forallb isWhiteSpace s = true.
Proof.
  unfold trim, trimEnd. split.
  - intros H.
    assert (H1 : trimStart (rev (trimStart s)) = []).
    { apply (f_equal (@rev N)) in H. now rewrite rev_involutive in H. }
    apply trimStart_nil in H1. rewrite forallb_rev in H1.
    destruct (trimStart_head s) as [E | (c & r & E & Hc)].
    + now apply trimStart_nil.
    + rewrite E in H1. simpl in H1. rewrite Hc in H1. discriminate.
  - intros H. now rewrite (trimStart_blank s H).
Qed.

Lemma blank_no_digits (s : jsstring) :
  forallb isWhiteSpace s = true -> filter isDigit s = [].
Proof.
  induction s as [| c r IH]; simpl; [reflexivity |].
  rewrite andb_true_iff. intros [Hc Hr].
  now rewrite (isWhiteSpace_not_digit c Hc), IH.
Qed.

Lemma getPhoneDigits_eq (value : jsstring) :
  getPhoneDigits value = firstn 10 (filter isDigit value).
Proof. reflexivity. Qed.

Lemma getPhoneDigits_length (value : jsstring) :
  length (getPhoneDigits value) <= 10.
Proof. rewrite getPhoneDigits_eq. apply firstn_le_length. Qed.

Lemma filter_all (A : Type) (p : A -> bool) (l : list A) :
  forallb p l = true -> filter p l = l.
Proof.
  induction l as [| a l IH]; simpl; [reflexivity |].
  rewrite andb_true_iff. intros [Ha Hl]. now rewrite Ha, IH.
Qed.

Lemma forallb_filter (A : Type) (p : A -> bool) (l : list A) :
  forallb p (filter p l) = true.
Proof.
  induction l as [| a l IH]; simpl; [reflexivity |].
  destruct (p a) eqn:E; simpl; [now rewrite E | exact IH].
Qed.

Lemma forallb_firstn (A : Type) (p : A -> bool) (n : nat) (l : list A) :
  forallb p l = true -> forallb p (firstn n l) = true.
Proof.
  revert l. induction n as [| n IH]; intros [| a l]; simpl; try reflexivity.
  rewrite !andb_true_iff. intros [Ha Hl]. split; [exact Ha | now apply IH].
Qed.

Lemma forallb_skipn (A : Type) (p : A -> bool) (n : nat) (l : list A) :
  forallb p l = true -> forallb p (skipn n l) = true.
Proof.
  revert l. induction n as [| n IH]; intros [| a l]; simpl; try easy.
  rewrite andb_true_iff. intros [_ Hl]. now apply IH.
Qed.

Lemma getPhoneDigits_digits (value : jsstring) :
  forallb isDigit (getPhoneDigits value) = true.
Proof.
  rewrite getPhoneDigits_eq. apply forallb_firstn, forallb_filter.
Qed.

(** A string with ten phone digits is not blank. *)
Lemma ten_digits_not_blank (value : jsstring) :
  length (getPhoneDigits value) = 10 -> truthy (trim value) = true.
Proof.
  intros H. destruct (trim value) eqn:E; [| reflexivity].
  apply trim_nil_iff, blank_no_digits in E.
  rewrite getPhoneDigits_eq, E in H. discriminate.
Qed.

Lemma isValidEmail_not_blank (value : jsstring) :
  isValidEmail value = true -> truthy (trim value) = true.
Proof.
  unfold isValidEmail. destruct (trim value); [discriminate | reflexivity].
Qed.

Lemma truthy_length (s : jsstring) : (0 <? length s) = truthy s.
Proof. now destruct s. Qed.

End StringFacts.

(** ** The phone mask *)

Section PhoneMaskFacts.

Import Page.

Variable value : jsstring.
Local Abbreviation digits := (getPhoneDigits value).

Lemma formatPhoneNumber_short :
  length digits <= 3 -> formatPhoneNumber value = digits.
Proof.
  intros H. unfold formatPhoneNumber. cbv zeta.
  now rewrite (proj2 (Nat.leb_le _ _) H).
Qed.

Lemma formatPhoneNumber_area :
  4 <= length digits <= 6 ->
  formatPhoneNumber value
  = lit "(" ++ firstn 3 digits ++ lit ") " ++ skipn 3 digits.
Proof.
  intros [H4 H6]. unfold formatPhoneNumber. cbv zeta.
  rewrite (proj2 (Nat.leb_gt _ _) H4), (proj2 (Nat.leb_le _ _) H6).
  reflexivity.
Qed.

Lemma formatPhoneNumber_full :
  7 <= length digits ->
  formatPhoneNumber value
  = lit "(" ++ firstn 3 digits ++ lit ") " ++ firstn 3 (skipn 3 digits)
      ++ lit "-" ++ skipn 6 digits.
Proof.
  intros H7. unfold formatPhoneNumber. cbv zeta.
  rewrite (proj2 (Nat.leb_gt (length digits) 3)) by lia.
  rewrite (proj2 (Nat.leb_gt (length digits) 6)) by lia.
  unfold slice. change (10 - 6) with 4. change (6 - 3) with 3.
  change (3 - 0) with 3. rewrite skipn_0.
  rewrite (firstn_all2 (n := 4) (skipn 6 digits)); [reflexivity |].
  rewrite length_skipn. pose proof (getPhoneDigits_length value). lia.
Qed.

Lemma digits_split3 :
  digits = firstn 3 digits ++ firstn 3 (skipn 3 digits) ++ skipn 6 digits.
Proof.
  change 6 with (3 + 3). rewrite <- skipn_skipn.
  now rewrite !firstn_skipn.
Qed.

(** The digits of the masked value are the digits that went in. *)
Lemma formatPhoneNumber_digits :
  filter isDigit (formatPhoneNumber value) = digits.
Proof.
  pose proof (getPhoneDigits_digits value) as Hd.
  assert (Hf : forall n, filter isDigit (firstn n digits) = firstn n digits)
    by (intros n; now apply filter_all, forallb_firstn).
  assert (Hs : forall n, filter isDigit (skipn n digits) = skipn n digits)
    by (intros n; now apply filter_all, forallb_skipn).
  assert (Hfs : filter isDigit (firstn 3 (skipn 3 digits))
                = firstn 3 (skipn 3 digits))
    by now apply filter_all, forallb_firstn, forallb_skipn.
  assert (Ho : filter isDigit (lit "(") = []) by reflexivity.
  assert (Hc : filter isDigit (lit ") ") = []) by reflexivity.
  assert (Hm : filter isDigit (lit "-") = []) by reflexivity.
  destruct (Nat.le_gt_cases (length digits) 3) as [H3 | H3].
  - rewrite formatPhoneNumber_short by exact H3. now apply filter_all.
  - destruct (Nat.le_gt_cases (length digits) 6) as [H6 | H6].
    + rewrite formatPhoneNumber_area by lia.
      rewrite !filter_app, Hf, Hs, Ho, Hc. cbn [app]. apply firstn_skipn.
    + rewrite formatPhoneNumber_full by lia.
      rewrite !filter_app, Hf, Hs, Hfs, Ho, Hc, Hm. cbn [app].
      symmetry. apply digits_split3.
Qed.

Lemma formatPhoneNumber_PhoneMask :
  PhoneMask digits (formatPhoneNumber value).
Proof.
  pose proof (getPhoneDigits_length value) as H10.
  destruct (Nat.le_gt_cases (length digits) 3) as [H3 | H3].
  - rewrite formatPhoneNumber_short by exact H3. now constructor.
  - destruct (Nat.le_gt_cases (length digits) 6) as [H6 | H6].
    + rewrite formatPhoneNumber_area by lia.
      rewrite <- (firstn_skipn 3 digits) at 1.
      apply mask_area; rewrite ?length_firstn, ?length_skipn; lia.
    + rewrite formatPhoneNumber_full by lia.
      rewrite digits_split3 at 1.
      apply mask_full;
        rewrite ?length_firstn, ?length_skipn; lia.
Qed.

End PhoneMaskFacts.

(** C2.  For every raw input, the phone field after [handleChange]
    holds [formatPhoneNumber raw]; its digits are the first at most ten
    digits of the input, never more than ten, and it renders them by
    the mask: up to 3 digits unmasked, 4 to 6 as [(AAA) B..], 7 to 10
    as [(AAA) BBB-C..], so ten digits give [(AAA) BBB-CCCC]. *)
Theorem phone_normalizer_mask (raw : jsstring) (st : Page.LeadFormState) :
  let stored :=
    Page.phoneNumber (Page.values (Page.handleChange Page.Key_phoneNumber raw st)) in
  let digits := firstn 10 (filter isDigit raw) in
  stored = Page.formatPhoneNumber raw
  /\ filter isDigit stored = digits
  /\ length (filter isDigit stored) <= 10
  /\ Page.PhoneMask digits stored.
Proof.
  cbv zeta. change (Page.phoneNumber (Page.values
    (Page.handleChange Page.Key_phoneNumber raw st)))
    with (Page.formatPhoneNumber raw).
  rewrite <- (getPhoneDigits_eq raw), formatPhoneNumber_digits.
  repeat split.
  - apply getPhoneDigits_length.
  - apply formatPhoneNumber_PhoneMask.
Qed.

(** C9.  The phone normalizer is idempotent, because [getPhoneDigits]
    strips the mask characters back out; hence re-normalizing the
    stored phone value on a keystroke leaves the form values as they
    are. *)
Theorem formatPhoneNumber_idempotent (s : jsstring) (st : Page.LeadFormState) :
  Page.formatPhoneNumber (Page.formatPhoneNumber s) = Page.formatPhoneNumber s
  /\ Page.getPhoneDigits (Page.formatPhoneNumber s) = Page.getPhoneDigits s
  /\ let st' := Page.handleChange Page.Key_phoneNumber s st in
     Page.values
       (Page.handleChange Page.Key_phoneNumber
          (Page.phoneNumber (Page.values st')) st')
     = Page.values st'.
Proof.
  assert (Hd : Page.getPhoneDigits (Page.formatPhoneNumber s)
               = Page.getPhoneDigits s).
  { rewrite (getPhoneDigits_eq (Page.formatPhoneNumber s)).
    rewrite formatPhoneNumber_digits. apply firstn_all2.
    apply getPhoneDigits_length. }
  assert (Hi : Page.formatPhoneNumber (Page.formatPhoneNumber s)
               = Page.formatPhoneNumber s).
  { unfold Page.formatPhoneNumber at 1 3. now rewrite Hd. }
  repeat split; [exact Hi | exact Hd |].
  cbv zeta. unfold Page.handleChange. simpl. now rewrite Hi.
Qed.

(** ** Validation against readiness *)

Section ValidationFacts.

Import Page.

Variable v : FormValues.

(** [validateForm] reports nothing exactly when each of its tests
    passes. *)
Lemma validateForm_nil_iff :
  validateForm v = [] <->
  truthy (trim (fullName v)) = true
  /\ truthy (trim (phoneNumber v)) = true
  /\ (length (getPhoneDigits (phoneNumber v)) =? 10) = true
  /\ truthy (trim (email v)) = true
  /\ isValidEmail (email v) = true
  /\ (truthy (trim (storeUrl v)) && negb (isValidStoreUrl (storeUrl v)))
     = false
  /\ truthy (revenueStream v) = true.
Proof.
  unfold validateForm.
  destruct (truthy (trim (fullName v))),
           (truthy (trim (phoneNumber v))),
           (length (getPhoneDigits (phoneNumber v)) =? 10),
           (truthy (trim (email v))),
           (isValidEmail (email v)),
           (truthy (trim (storeUrl v)) && negb (isValidStoreUrl (storeUrl v))),
           (truthy (revenueStream v));
    cbn [negb obj_set FieldKey_eqb];
    (split; [intros H; try discriminate H; repeat split; reflexivity
            | intros (H1 & H2 & H3 & H4 & H5 & H6 & H7);
              try discriminate; reflexivity]).
Qed.

Lemma isFormReady_true_iff :
  isFormReady v = true <->
  truthy (trim (fullName v)) = true
  /\ (length (getPhoneDigits (phoneNumber v)) =? 10) = true
  /\ isValidEmail (email v) = true
  /\ (truthy (trim (storeUrl v)) && negb (isValidStoreUrl (storeUrl v)))
     = false
  /\ truthy (trim (revenueStream v)) = true.
Proof.
  unfold isFormReady. rewrite !truthy_length, !andb_true_iff.
  destruct (truthy (trim (storeUrl v))), (isValidStoreUrl (storeUrl v));
    simpl; intuition discriminate.
Qed.

Lemma trim_truthy (s : jsstring) :
  truthy (trim s) = true -> truthy s = true.
Proof.
  destruct s; [| reflexivity]. discriminate.
Qed.

(** A ready form passes validation. *)
Lemma isFormReady_validateForm :
  isFormReady v = true -> validateForm v = [].
Proof.
  rewrite isFormReady_true_iff, validateForm_nil_iff.
  intros (H1 & H2 & H3 & H4 & H5). repeat split; try assumption.
  - apply ten_digits_not_blank. now apply Nat.eqb_eq.
  - now apply isValidEmail_not_blank.
  - now apply trim_truthy.
Qed.

(** A form that passes validation is ready, provided its revenue
    stream is not made of white space only. *)
Lemma validateForm_isFormReady :
  validateForm v = [] ->
  truthy (trim (revenueStream v)) = true ->
  isFormReady v = true.
Proof.
  rewrite isFormReady_true_iff, validateForm_nil_iff.
  intros (H1 & H2 & H3 & H4 & H5 & H6 & H7) H8. now repeat split.
Qed.

(** The two agree whenever trimming does not empty the revenue
    stream, as on every option of the select. *)
Lemma validateForm_isFormReady_iff :
  truthy (trim (revenueStream v)) = truthy (revenueStream v) ->
  (validateForm v = [] <-> isFormReady v = true).
Proof.
  intros Hr. split.
  - intros H. apply validateForm_isFormReady; [exact H |].
    rewrite Hr. now apply validateForm_nil_iff in H.
  - apply isFormReady_validateForm.
Qed.

End ValidationFacts.

(** The endpoint, which trims the revenue stream, rejects the
    submission of [Examples.blankRevenue]. *)
Lemma blankRevenue_rejected (srv : Route.Server) (key : jsstring) :
  Route.resendApiKey srv = Some key ->
  fst (Route.POST srv (Normal (Wire.encode Examples.blankRevenue)))
  = Route.missingFields.
Proof.
  intros Hk. unfold Route.POST, Route.POST_try. now rewrite Hk.
Qed.

(** C1, as stated for every combination of field values, fails on a
    revenue stream of white space: [validateForm] tests the raw string
    where [isFormReady] tests the trimmed one.  On
    [Examples.blankRevenue] validation reports no error and yet the
    form is not ready. *)
Theorem validateForm_isFormReady_diverge :
  Page.validateForm Examples.blankRevenue = []
  /\ Page.isFormReady Examples.blankRevenue = false.
Proof. split; reflexivity. Qed.

(** C1, amended.  For every combination of field values whose revenue
    stream is one of the values the select offers, or more generally
    is empty or is not white space only, [validateForm] returns no
    error if and only if [isFormReady] is true. *)
Theorem validateForm_iff_isFormReady (v : Page.FormValues) :
  In (Page.revenueStream v) Widgets.revenueOptions
  \/ Page.revenueStream v = []
  \/ trim (Page.revenueStream v) <> [] ->
  Page.validateForm v = [] <-> Page.isFormReady v = true.
Proof.
  intros H. apply validateForm_isFormReady_iff.
  destruct H as [H | [H | H]].
  - unfold Widgets.revenueOptions in H. simpl in H.
    destruct H as [<- | [<- | [<- | [<- | [<- | []]]]]]; reflexivity.
  - now rewrite H.
  - destruct (trim (Page.revenueStream v)) as [| c t] eqn:E;
      [contradiction |].
    destruct (Page.revenueStream v); [discriminate E | reflexivity].
Qed.

Lemma validateForm_iff_isFormReady_witness :
  In (Page.revenueStream Examples.readyLead) Widgets.revenueOptions
  /\ (Page.validateForm Examples.readyLead = []
      <-> Page.isFormReady Examples.readyLead = true).
Proof.
  split; [right; left; reflexivity |].
  apply (@validateForm_iff_isFormReady Examples.readyLead).
  left. right. left. reflexivity.
Defined.

(** ** The endpoint *)

Section EndpointFacts.

Import Route.

Lemma bind_lift_Normal (A B : Type) (a : A) (f : A -> M B) :
  bind (lift (Normal a)) f = f a.
Proof. unfold bind, lift. now destruct (f a). Qed.

Lemma bind_lift_Throw (A B : Type) (t : Thrown) (f : A -> M B) :
  bind (lift (Throw t)) f = ([], Throw t).
Proof. reflexivity. Qed.

Lemma bind_perform_Normal (A B : Type) (e : Effect) (a : A) (f : A -> M B) :
  bind (perform e (Normal a)) f = (e :: fst (f a), snd (f a)).
Proof. unfold bind, perform. now destruct (f a). Qed.

Lemma bind_perform_Throw (A B : Type) (e : Effect) (t : Thrown)
    (f : A -> M B) :
  bind (perform e (Throw t)) f = ([e], Throw t).
Proof. reflexivity. Qed.

Variable srv : Server.

Lemma resendApiKey_None_iff :
  resendApiKey srv = None <->
  unset (RESEND_API_KEY srv) = true
  /\ unset (NEXT_PUBLIC_RESEND_API_KEY srv) = true.
Proof.
  unfold resendApiKey, unset.
  destruct (RESEND_API_KEY srv) as [[| c k] |],
           (NEXT_PUBLIC_RESEND_API_KEY srv) as [[| c' k'] |];
    intuition discriminate.
Qed.

(** The key in use is the first of the two variables that is set. *)
Lemma resendApiKey_Some (key : jsstring) :
  resendApiKey srv = Some key ->
  if unset (RESEND_API_KEY srv)
  then NEXT_PUBLIC_RESEND_API_KEY srv = Some key
       /\ unset (NEXT_PUBLIC_RESEND_API_KEY srv) = false
  else RESEND_API_KEY srv = Some key.
Proof.
  unfold resendApiKey, unset.
  destruct (RESEND_API_KEY srv) as [[| c k] |],
           (NEXT_PUBLIC_RESEND_API_KEY srv) as [[| c' k'] |];
    intros H; try discriminate H; auto.
Qed.

Lemma POST_unconfigured (rq : Completion JsValue) :
  resendApiKey srv = None -> POST srv rq = (notConfigured, []).
Proof. intros H. unfold POST, POST_try. now rewrite H. Qed.

(** With a key, the first thing the handler does is read the body. *)
Lemma POST_configured_reads (rq : Completion JsValue) (key : jsstring) :
  resendApiKey srv = Some key ->
  hd_error (snd (POST srv rq)) = Some ReadBody.
Proof.
  intros H. unfold POST, POST_try. rewrite H.
  destruct rq as [body | t].
  - rewrite bind_perform_Normal.
    match goal with |- context [snd ?m] => now destruct (snd m) end.
  - reflexivity.
Qed.

(** The relay call and what follows it. *)
Lemma POST_send (key : jsstring) (mail : Email) :
  bind (perform (RelaySend key mail) (resend_emails_send srv key mail))
    (fun result =>
       match error result with
       | Some e =>
           ret (NextResponse_json
                  (ErrorBody (lit "Resend error: " ++ resendErrorMessage e))
                  (Some 502))
       | None => ret (NextResponse_json SuccessBody None)
       end)
  = ([RelaySend key mail],
     match resend_emails_send srv key mail with
     | Normal _ => Normal (afterRelay (resend_emails_send srv key mail))
     | Throw t => Throw t
     end).
Proof.
  destruct (resend_emails_send srv key mail) as [[[e |]] | t]; reflexivity.
Qed.

(** A run in which the relay was called: it was called once, after the
    body was read, and its outcome decides the response. *)
Lemma POST_relay_inv (rq : Completion JsValue) (key : jsstring)
    (mail : Email) :
  In (RelaySend key mail) (snd (POST srv rq)) ->
  resendApiKey srv = Some key
  /\ POST srv rq = (afterRelay (resend_emails_send srv key mail),
                    [ReadBody; RelaySend key mail]).
Proof.
  unfold POST, POST_try.
  destruct (resendApiKey srv) as [k |] eqn:Hk; [| simpl; contradiction].
  destruct rq as [body | t].
  2:{ rewrite bind_perform_Throw. simpl. intuition discriminate. }
  rewrite bind_perform_Normal.
  repeat match goal with
  | |- context [trimmedField ?e ?b ?n] =>
      destruct (trimmedField e b n);
      [ rewrite bind_lift_Normal
      | rewrite bind_lift_Throw; simpl; intuition discriminate ]
  end.
  match goal with |- context [if ?c then _ else _] => destruct c end.
  { simpl; intuition discriminate. }
  rewrite POST_send.
  match goal with |- context [resend_emails_send srv k ?m] =>
    destruct (resend_emails_send srv k m) as [r | t] eqn:Hs
  end; simpl; (intros [H | [H | []]]; [discriminate H |]);
  injection H as <- <-; rewrite Hs; (split; reflexivity).
Qed.

Lemma trimmedField_LeadPayload (eng : Engine) (body : JsValue)
    (name : jsstring) :
  isLeadPayload body = true -> In name fieldNames ->
  trimmedField eng body name = Normal (trimmed (fieldOf body name)).
Proof.
  intros Hb Hn. unfold trimmedField, getField.
  destruct body; try discriminate Hb; try reflexivity.
  unfold isLeadPayload in Hb. rewrite forallb_forall in Hb.
  specialize (Hb name Hn). simpl in *.
  now destruct (lookup name props).
Qed.

Lemma absentOrBlank_trimmed (v : JsValue) :
  optionalString v = true -> absentOrBlank v = negb (truthy (trimmed v)).
Proof. now destruct v. Qed.

(** The handler on a body of the promised shape. *)
Lemma POST_LeadPayload (key : jsstring) (body : JsValue) :
  resendApiKey srv = Some key -> isLeadPayload body = true ->
  POST srv (Normal body)
  = if missingRequired body then (missingFields, [ReadBody])
    else (afterRelay (resend_emails_send srv key (mailOf body)),
          [ReadBody; RelaySend key (mailOf body)]).
Proof.
  intros Hk Hb. unfold POST, POST_try. rewrite Hk, bind_perform_Normal.
  rewrite !(fun e n => @trimmedField_LeadPayload e body n Hb),
          !bind_lift_Normal by (simpl; tauto).
  assert (Ho : forall name, In name fieldNames ->
                            optionalString (fieldOf body name) = true).
  { destruct body; try discriminate Hb; unfold isLeadPayload in Hb;
      rewrite forallb_forall in Hb; exact Hb. }
  unfold missingRequired, requiredNames, existsb.
  rewrite !absentOrBlank_trimmed by (apply Ho; simpl; tauto).
  rewrite orb_false_r, !orb_assoc.
  match goal with |- context [if ?c then _ else _] => destruct c end.
  - reflexivity.
  - fold (mailOf body). rewrite POST_send.
    now destruct (resend_emails_send srv key (mailOf body)).
Qed.

Lemma afterRelay_status (sent : Completion SendResult) :
  status (afterRelay sent) <> 400.
Proof. destruct sent as [[[e |]] | t]; discriminate. Qed.

End EndpointFacts.

(** C4.  With no API key in the environment (both variables absent or
    empty) the handler answers 500 with the fixed configuration error
    whatever the request is, parsable or not, and does nothing else:
    the body is not read and the relay is not called. *)
Theorem POST_not_configured (srv : Route.Server)
    (request_json : Completion Route.JsValue) :
  Route.unset (Route.RESEND_API_KEY srv) = true ->
  Route.unset (Route.NEXT_PUBLIC_RESEND_API_KEY srv) = true ->
  Route.POST srv request_json
  = ({| Route.status := 500;
        Route.json := Route.ErrorBody (lit "Email service is not configured. Set RESEND_API_KEY in your server environment.") |},
     [])
  /\ Route.relayCalls (snd (Route.POST srv request_json)) = [].
Proof.
  intros H1 H2.
  rewrite (@POST_unconfigured srv request_json)
    by (apply resendApiKey_None_iff; now split).
  split; reflexivity.
Qed.

Lemma POST_not_configured_witness :
  Route.POST Examples.bareServer
    (Throw (ErrorInstance (lit "Unexpected end of JSON input")))
  = ({| Route.status := 500;
        Route.json := Route.ErrorBody (lit "Email service is not configured. Set RESEND_API_KEY in your server environment.") |},
     [])
  /\ Route.relayCalls
       (snd (Route.POST Examples.bareServer
               (Throw (ErrorInstance (lit "Unexpected end of JSON input")))))
     = [].
Proof.
  apply (@POST_not_configured Examples.bareServer); reflexivity.
Defined.

(** C10.  The configuration error is the handler's whole run exactly
    when both [RESEND_API_KEY] and [NEXT_PUBLIC_RESEND_API_KEY] are
    absent or empty.  When either is set the handler goes on to read
    the request, and any key handed to the relay is [RESEND_API_KEY]
    when that is set and [NEXT_PUBLIC_RESEND_API_KEY] otherwise. *)
Theorem POST_key_preference (srv : Route.Server)
    (request_json : Completion Route.JsValue) :
  (Route.POST srv request_json = (Route.notConfigured, [])
   <-> Route.unset (Route.RESEND_API_KEY srv) = true
       /\ Route.unset (Route.NEXT_PUBLIC_RESEND_API_KEY srv) = true)
  /\ (Route.unset (Route.RESEND_API_KEY srv) = false
      \/ Route.unset (Route.NEXT_PUBLIC_RESEND_API_KEY srv) = false ->
      hd_error (snd (Route.POST srv request_json)) = Some Route.ReadBody)
  /\ (forall key mail,
        In (Route.RelaySend key mail) (snd (Route.POST srv request_json)) ->
        if Route.unset (Route.RESEND_API_KEY srv)
        then Route.NEXT_PUBLIC_RESEND_API_KEY srv = Some key
        else Route.RESEND_API_KEY srv = Some key).
Proof.
  assert (Hreads : forall key, Route.resendApiKey srv = Some key ->
            hd_error (snd (Route.POST srv request_json))
            = Some Route.ReadBody)
    by (intros key; apply POST_configured_reads).
  pose proof (resendApiKey_None_iff srv) as Hnone.
  destruct (Route.resendApiKey srv) as [k |] eqn:Hk.
  - specialize (Hreads k eq_refl).
    assert (Hset : ~ (Route.unset (Route.RESEND_API_KEY srv) = true
                      /\ Route.unset (Route.NEXT_PUBLIC_RESEND_API_KEY srv)
                         = true))
      by (intros Hu; apply Hnone in Hu; discriminate Hu).
    split; [split | split].
    + intros Hp. rewrite Hp in Hreads. discriminate Hreads.
    + intros Hu. contradiction.
    + intros _. exact Hreads.
    + intros key mail Hin. apply POST_relay_inv in Hin.
      destruct Hin as [Hkey _]. apply resendApiKey_Some in Hkey.
      destruct (Route.unset (Route.RESEND_API_KEY srv)); tauto.
  - destruct (proj1 Hnone eq_refl) as [H1 H2].
    rewrite (@POST_unconfigured srv request_json Hk).
    split; [split | split].
    + intros _. now split.
    + reflexivity.
    + rewrite H1, H2. intros [Hu | Hu]; discriminate Hu.
    + simpl. contradiction.
Qed.

(** A key supplied under the public-prefixed name alone is used. *)
Lemma POST_public_key_used :
  Route.POST Examples.publicKeyServer
    (Normal (Wire.encode Examples.readyLead))
  = ({| Route.status := 200; Route.json := Route.SuccessBody |},
     [ Route.ReadBody;
       Route.RelaySend (lit "re_public_key")
         (Route.mailOf (Wire.encode Examples.readyLead)) ]).
Proof. vm_compute. reflexivity. Qed.

(** C5.  When the relay, called in the course of a request, reports a
    send error, the handler answers 502 with [Resend error: ] followed
    by the provider's message when that is a non-empty string and by
    [Unable to send email.] otherwise. *)
Theorem POST_relay_error (srv : Route.Server)
    (request_json : Completion Route.JsValue)
    (key : jsstring) (mail : Route.Email) (e : Route.RelayError) :
  In (Route.RelaySend key mail) (snd (Route.POST srv request_json)) ->
  Route.resend_emails_send srv key mail
  = Normal {| Route.error := Some e |} ->
  fst (Route.POST srv request_json)
  = {| Route.status := 502;
       Route.json :=
         Route.ErrorBody
           (lit "Resend error: "
            ++ match Route.message e with
               | Route.JString (c :: m) => c :: m
               | _ => lit "Unable to send email."
               end) |}.
Proof.
  intros Hin Hsend. apply POST_relay_inv in Hin. destruct Hin as [_ Hp].
  rewrite Hp, Hsend. reflexivity.
Qed.

Lemma POST_relay_error_witness :
  fst (Route.POST
         (Examples.server
            (Examples.relayFails (Route.JString (lit "quota exceeded"))))
         (Normal (Wire.encode Examples.readyLead)))
  = {| Route.status := 502;
       Route.json := Route.ErrorBody (lit "Resend error: quota exceeded") |}.
Proof.
  apply (@POST_relay_error
           (Examples.server
              (Examples.relayFails (Route.JString (lit "quota exceeded"))))
           (Normal (Wire.encode Examples.readyLead))
           (lit "re_server_key")
           (Route.mailOf (Wire.encode Examples.readyLead))
           {| Route.message := Route.JString (lit "quota exceeded") |}).
  - vm_compute. right. left. reflexivity.
  - reflexivity.
Defined.

(** C3, as stated, fails on bodies that parse as JSON but are not of
    the shape [LeadPayload] promises.  With the four required texts
    present (and a phone number that is not ten digits) a numeric
    store URL makes [trim] throw: the answer is 500 and the relay is
    not called.  With a blank full name, a numeric message gives 500
    rather than 400; so does the body [null]. *)
Lemma POST_unshaped_body_counterexample :
  (Route.missingRequired Examples.numericStoreUrl = false
   /\ Route.status
        (fst (Route.POST (Examples.server Examples.relayOk)
                (Normal Examples.numericStoreUrl))) = 500
   /\ Route.relayCalls
        (snd (Route.POST (Examples.server Examples.relayOk)
                (Normal Examples.numericStoreUrl))) = [])
  /\ (Route.missingRequired Examples.blankNameNumericMessage = true
      /\ Route.status
           (fst (Route.POST (Examples.server Examples.relayOk)
                   (Normal Examples.blankNameNumericMessage))) = 500)
  /\ Route.status
       (fst (Route.POST (Examples.server Examples.relayOk)
               (Normal Route.JNull))) = 500.
Proof. repeat split; reflexivity. Qed.

(** C3, amended.  With a key configured and a body of the promised
    shape (not [null]; each of the six fields absent, [null] or a
    string), the handler answers 400 [Missing required fields.], and
    does not call the relay, exactly when one of [fullName],
    [phoneNumber], [email], [revenueStream] is absent or empty after
    trim.  Nothing else about the fields is checked: otherwise the
    relay is called once with the mail built from the trimmed fields
    and its outcome decides the response. *)
Theorem POST_missing_fields (srv : Route.Server) (key : jsstring)
    (body : Route.JsValue) :
  Route.resendApiKey srv = Some key ->
  Route.isLeadPayload body = true ->
  (Route.status (fst (Route.POST srv (Normal body))) = 400
   <-> Route.missingRequired body = true)
  /\ (Route.missingRequired body = true ->
      Route.POST srv (Normal body)
      = ({| Route.status := 400;
            Route.json := Route.ErrorBody (lit "Missing required fields.") |},
         [Route.ReadBody]))
  /\ (Route.missingRequired body = false ->
      Route.POST srv (Normal body)
      = (Route.afterRelay
           (Route.resend_emails_send srv key (Route.mailOf body)),
         [Route.ReadBody; Route.RelaySend key (Route.mailOf body)])).
Proof.
  intros Hk Hb. rewrite (POST_LeadPayload srv body Hk Hb).
  destruct (Route.missingRequired body); repeat split; try easy.
  intros H. now apply afterRelay_status in H.
Qed.

Lemma POST_missing_fields_witness :
  (Route.resendApiKey (Examples.server Examples.relayOk)
   = Some (lit "re_server_key")
   /\ Route.isLeadPayload Examples.shapelessLead = true
   /\ Route.missingRequired Examples.shapelessLead = false)
  /\ Route.POST (Examples.server Examples.relayOk)
       (Normal Examples.shapelessLead)
     = ({| Route.status := 200; Route.json := Route.SuccessBody |},
        [ Route.ReadBody;
          Route.RelaySend (lit "re_server_key")
            (Route.mailOf Examples.shapelessLead) ]).
Proof.
  split; [repeat split; reflexivity |].
  apply (@POST_missing_fields (Examples.server Examples.relayOk)
           (lit "re_server_key") Examples.shapelessLead);
    reflexivity.
Defined.

(** ** The submit handler *)

Section SubmitFacts.

Import Page.

Lemma handleSubmit_begin_valid (st : LeadFormState) :
  validateForm (values st) = [] ->
  handleSubmit_begin st
  = ({| values := values st; errors := [];
        isSubmitting := true; submitted := submitted st;
        submitError := None |},
     Some {| url := lit "/api/book-call"; method := lit "POST";
             contentType := lit "application/json"; body := values st |}).
Proof. intros H. unfold handleSubmit_begin. now rewrite H. Qed.

Lemma handleSubmit_begin_invalid (st : LeadFormState) :
  validateForm (values st) <> [] ->
  handleSubmit_begin st
  = ({| values := values st; errors := validateForm (values st);
        isSubmitting := isSubmitting st; submitted := submitted st;
        submitError := submitError st |},
     None).
Proof.
  intros H. unfold handleSubmit_begin.
  destruct (validateForm (values st)); [contradiction | reflexivity].
Qed.

(** The [finally] block: whatever the outcome, the flag is lowered. *)
Lemma handleSubmit_settle_flag (o : FetchOutcome) (st : LeadFormState) :
  isSubmitting (handleSubmit_settle o st) = false.
Proof. reflexivity. Qed.

Lemma handleSubmit_settle_ok (response : HttpResponse)
    (st : LeadFormState) :
  ok response = true ->
  handleSubmit_settle (Normal response) st
  = {| values := initialFormValues; errors := errors st;
       isSubmitting := false; submitted := true;
       submitError := submitError st |}.
Proof. intros H. unfold handleSubmit_settle. now rewrite H. Qed.

Lemma guarded_step (ui ui' : UI) : guarded ui -> step ui ui' -> guarded ui'.
Proof.
  intros G S. destruct S as [key value ui _ | ui Hoff | o ui Hpos].
  - exact G.
  - unfold submitOffered, submitDisabled in Hoff.
    destruct (isSubmitting (form ui)) eqn:Hs.
    + cbn in Hoff. rewrite andb_false_r in Hoff. discriminate Hoff.
    + destruct G as [[G0 _] | [_ G1]]; [| congruence].
      unfold guarded, onSubmit, handleSubmit_begin. cbn [form inflight].
      rewrite G0.
      destruct (validateForm (values (form ui))); cbn; rewrite ?Hs; tauto.
  - left. unfold onSettle. cbn [form inflight].
    destruct G as [[G0 _] | [G1 _]]; [lia |]. now rewrite G1.
Qed.

Lemma reachable_guarded (ui : UI) : reachable ui -> guarded ui.
Proof.
  induction 1 as [| ui ui' _ IH S]; [now left |].
  exact (guarded_step IH S).
Qed.

(** While the flag is up the form is not yet marked submitted. *)
Lemma reachable_flag_unsubmitted (ui : UI) :
  reachable ui -> isSubmitting (form ui) = true ->
  submitted (form ui) = false.
Proof.
  induction 1 as [| ui ui' R IH S]; [reflexivity |].
  destruct S as [key value ui Hs | ui Hoff | o ui Hpos].
  - intros _. exact Hs.
  - unfold submitOffered in Hoff. apply andb_true_iff in Hoff.
    destruct Hoff as [Hs _]. apply negb_true_iff in Hs.
    unfold onSubmit, handleSubmit_begin. cbn [form].
    destruct (validateForm (values (form ui))); cbn; intros _; exact Hs.
  - cbn. discriminate.
Qed.

End SubmitFacts.

(** C8, amended.  In every state the page can reach, at most one
    request is in flight, and one is in flight exactly while
    [isSubmitting] is set.  The flag is raised in the step that issues
    the request; while it is set the submit control is disabled, so no
    submit event can occur; and whatever [fetch] settles to (success,
    HTTP error or rejection) the flag is lowered again, after which the
    control is disabled only by an unready form.  After a failure the
    form keeps its values and is offered for submission again exactly
    when they are ready; after a success it is marked submitted, its
    fields are reset and no submit is offered. *)
Theorem submit_guard (ui : Page.UI) :
  Page.reachable ui ->
  Page.inflight ui <= 1
  /\ (Page.inflight ui = 1 <-> Page.isSubmitting (Page.form ui) = true)
  /\ (Page.issued (snd (Page.handleSubmit_begin (Page.form ui))) = 1 ->
      Page.isSubmitting (fst (Page.handleSubmit_begin (Page.form ui)))
      = true)
  /\ (Page.isSubmitting (Page.form ui) = true ->
      Page.submitDisabled (Page.form ui) = true
      /\ Page.submitOffered (Page.form ui) = false
      /\ forall ui', Page.step ui ui' -> Page.inflight ui' <= 1)
  /\ (forall o,
        let st' := Page.handleSubmit_settle o (Page.form ui) in
        Page.isSubmitting st' = false
        /\ Page.submitDisabled st'
           = negb (Page.isFormReady (Page.values st')))
  /\ (Page.isSubmitting (Page.form ui) = true ->
      (forall body,
         let st' := Page.handleSubmit_settle
                      (Normal {| Page.ok := true; Page.json := body |})
                      (Page.form ui) in
         Page.submitted st' = true
         /\ Page.values st' = Page.initialFormValues
         /\ Page.submitOffered st' = false)
      /\ (forall body,
            let st' := Page.handleSubmit_settle
                         (Normal {| Page.ok := false; Page.json := body |})
                         (Page.form ui) in
            Page.submitted st' = false
            /\ Page.values st' = Page.values (Page.form ui)
            /\ Page.submitOffered st'
               = Page.isFormReady (Page.values (Page.form ui)))
      /\ (forall t,
            let st' := Page.handleSubmit_settle (Throw t) (Page.form ui) in
            Page.submitted st' = false
            /\ Page.values st' = Page.values (Page.form ui)
            /\ Page.submitOffered st'
               = Page.isFormReady (Page.values (Page.form ui)))).
Proof.
  intros R. pose proof (reachable_guarded R) as G.
  assert (Hle : forall u, Page.guarded u -> Page.inflight u <= 1)
    by (intros u [[H _] | [H _]]; lia).
  split; [now apply Hle |]. split; [| split; [| split; [| split]]].
  - destruct G as [[G0 Gs] | [G1 Gs]]; rewrite Gs; split;
      intros H; try lia; try discriminate H; reflexivity.
  - unfold Page.handleSubmit_begin.
    destruct (Page.validateForm (Page.values (Page.form ui)));
      cbn; [reflexivity | discriminate].
  - intros Hs. unfold Page.submitOffered, Page.submitDisabled.
    rewrite Hs. repeat split.
    + cbn. now rewrite andb_false_r.
    + intros ui' S. apply Hle. exact (guarded_step G S).
  - intros o. split; reflexivity.
  - intros Hs. pose proof (reachable_flag_unsubmitted R Hs) as Hu.
    split; [| split].
    + intros body. cbv zeta. now repeat split.
    + intros body. cbv zeta.
      unfold Page.handleSubmit_settle, Page.submitOffered,
        Page.submitDisabled. cbn. rewrite Hu. cbn.
      repeat split. apply negb_involutive.
    + intros t. cbv zeta.
      unfold Page.handleSubmit_settle, Page.submitOffered,
        Page.submitDisabled. cbn. rewrite Hu. cbn.
      repeat split. apply negb_involutive.
Qed.

Lemma submit_guard_witness :
  Page.inflight Examples.pending = 1
  /\ Page.isSubmitting (Page.form Examples.pending) = true
  /\ Page.submitOffered (Page.form Examples.pending) = false.
Proof.
  assert (R : Page.reachable Examples.pending).
  { eapply Page.reachable_step;
      [| apply Page.step_submit; reflexivity].
    repeat (eapply Page.reachable_step;
            [| apply Page.step_change; reflexivity]).
    apply Page.reachable_init. }
  destruct (submit_guard R) as (_ & Hflag & _ & Hoff & _).
  split; [reflexivity |].
  split; [apply Hflag; reflexivity |].
  apply Hoff. apply Hflag. reflexivity.
Defined.

(** ** The form against the endpoint *)

Section RoundTripFacts.

Import Page.

Variable v : FormValues.

Lemma isLeadPayload_encode : Route.isLeadPayload (Wire.encode v) = true.
Proof. reflexivity. Qed.

Lemma missingRequired_encode :
  Route.missingRequired (Wire.encode v)
  = negb (truthy (trim (fullName v)))
    || (negb (truthy (trim (phoneNumber v)))
        || (negb (truthy (trim (email v)))
            || (negb (truthy (trim (revenueStream v))) || false))).
Proof. reflexivity. Qed.

(** What the client calls ready, the endpoint does not reject. *)
Lemma isFormReady_not_missing :
  isFormReady v = true -> Route.missingRequired (Wire.encode v) = false.
Proof.
  rewrite isFormReady_true_iff, missingRequired_encode.
  intros (H1 & H2 & H3 & _ & H5).
  rewrite H1, H5, (isValidEmail_not_blank _ H3).
  rewrite (ten_digits_not_blank (phoneNumber v)); [reflexivity |].
  now apply Nat.eqb_eq.
Qed.

End RoundTripFacts.

(** C6.  For a fully valid submission (a ready form), a configured key
    and a relay that reports success, the endpoint answers 200 with
    [{ success: true }], and [handleSubmit] run against it leaves the
    form submitted with its six fields back to their initial empty
    values.  More generally, on any response whose [ok] is set the
    handler marks the form submitted and resets the six fields. *)
Theorem round_trip_success (srv : Route.Server) (key : jsstring)
    (st : Page.LeadFormState) :
  Page.isFormReady (Page.values st) = true ->
  Route.resendApiKey srv = Some key ->
  (forall k mail,
     Route.resend_emails_send srv k mail
     = Normal {| Route.error := None |}) ->
  fst (Route.POST srv (Normal (Wire.encode (Page.values st))))
  = {| Route.status := 200; Route.json := Route.SuccessBody |}
  /\ (let st' := Page.handleSubmit (Wire.fetch srv) st in
      Page.submitted st' = true
      /\ Page.values st' = Page.initialFormValues
      /\ Page.isSubmitting st' = false)
  /\ (forall (response : Page.HttpResponse) (s : Page.LeadFormState),
        Page.ok response = true ->
        let s' := Page.handleSubmit_settle (Normal response) s in
        Page.submitted s' = true
        /\ Page.values s' = Page.initialFormValues
        /\ Page.isSubmitting s' = false).
Proof.
  intros Hready Hkey Hrelay.
  assert (Hpost : fst (Route.POST srv (Normal (Wire.encode (Page.values st))))
                  = {| Route.status := 200; Route.json := Route.SuccessBody |}).
  { rewrite (POST_LeadPayload srv (Wire.encode (Page.values st)) Hkey
               (isLeadPayload_encode (Page.values st))).
    rewrite (isFormReady_not_missing _ Hready). cbn [fst].
    now rewrite Hrelay. }
  assert (Hok : forall response s, Page.ok response = true ->
            let s' := Page.handleSubmit_settle (Normal response) s in
            Page.submitted s' = true
            /\ Page.values s' = Page.initialFormValues
            /\ Page.isSubmitting s' = false).
  { intros response s H. cbv zeta.
    rewrite (handleSubmit_settle_ok response s H). now repeat split. }
  split; [exact Hpost | split; [| exact Hok]].
  unfold Page.handleSubmit.
  rewrite (handleSubmit_begin_valid st (isFormReady_validateForm _ Hready)).
  apply Hok. unfold Wire.fetch. cbn [Page.body]. now rewrite Hpost.
Qed.

Lemma round_trip_success_witness :
  fst (Route.POST (Examples.server Examples.relayOk)
         (Normal (Wire.encode Examples.readyLead)))
  = {| Route.status := 200; Route.json := Route.SuccessBody |}
  /\ Page.submitted
       (Page.handleSubmit (Wire.fetch (Examples.server Examples.relayOk))
          Examples.readyState) = true
  /\ Page.values
       (Page.handleSubmit (Wire.fetch (Examples.server Examples.relayOk))
          Examples.readyState) = Page.initialFormValues.
Proof.
  destruct (@round_trip_success (Examples.server Examples.relayOk)
              (lit "re_server_key") Examples.readyState)
    as (Hpost & (Hs & Hv & _) & _);
    [reflexivity | reflexivity | reflexivity |].
  split; [exact Hpost | split; [exact Hs | exact Hv]].
Defined.

(** C7, as stated, fails when no response is received: [fetch] then
    rejects with an [Error] (a [TypeError] with the browser's text),
    and the form shows that text, not the generic fallback. *)
Lemma transport_failure_counterexample :
  Page.submitError
    (Page.handleSubmit
       (fun _ => Throw (ErrorInstance (lit "Failed to fetch")))
       Examples.readyState)
  = Some (lit "Failed to fetch")
  /\ Some (lit "Failed to fetch")
     <> Some (lit "Something went wrong. Please try again in a moment.").
Proof. split; [reflexivity | discriminate]. Qed.

(** C7, amended.  On a response whose [ok] is not set, with a body of
    the declared shape, the form shows the [error] text of the body
    when there is one and it is not empty, and [Request failed]
    otherwise (unparsable body, [null], no [error], or an empty one).  When [fetch] rejects, the form shows the message of
    the rejection when that is an [Error], and [Something went wrong.
    Please try again in a moment.] only when it is not.  In each case
    the form is not marked submitted and keeps its values. *)
Theorem submit_failure_message (st : Page.LeadFormState) :
  (forall body,
     let st' := Page.handleSubmit_settle
                  (Normal {| Page.ok := false; Page.json := body |}) st in
     Page.submitError st'
     = Some match body with
            | Normal (Some {| Page.error := Some (c :: m) |}) => c :: m
            | _ => lit "Request failed"
            end
     /\ Page.submitted st' = Page.submitted st
     /\ Page.values st' = Page.values st)
  /\ (forall m,
        let st' := Page.handleSubmit_settle (Throw (ErrorInstance m)) st in
        Page.submitError st' = Some m
        /\ Page.submitted st' = Page.submitted st
        /\ Page.values st' = Page.values st)
  /\ (let st' := Page.handleSubmit_settle (Throw NotAnError) st in
      Page.submitError st'
      = Some (lit "Something went wrong. Please try again in a moment.")
      /\ Page.submitted st' = Page.submitted st
      /\ Page.values st' = Page.values st).
Proof.
  split; [| split].
  - intros [[[[[| c m] |]] |] | t]; repeat split; reflexivity.
  - intros m. repeat split; reflexivity.
  - repeat split; reflexivity.
Qed.

(** * Further properties of the code *)

(** ** Regular expressions: the matcher against the language *)

Section RegexFacts.

Import Lang.

Lemma nullable_Matches (r : regex) : nullable r = true <-> Matches r [].
Proof.
  induction r as [| | p | r IHr s IHs | r IHr s IHs | r IHr]; simpl.
  - split; [discriminate | inversion 1].
  - split; [constructor | reflexivity].
  - split; [discriminate | inversion 1].
  - rewrite andb_true_iff, IHr, IHs. split.
    + intros [Hr Hs]. exact (MCat Hr Hs).
    + inversion 1 as [| | r' s' u v Hu Hv | | | |]; subst.
      match goal with Heq : u ++ v = [] |- _ =>
        destruct (app_eq_nil _ _ Heq) as [-> ->]
      end. now split.
  - rewrite orb_true_iff, IHr, IHs. split.
    + intros [H | H]; [now apply MAltL | now apply MAltR].
    + inversion 1; subst; [now left | now right].
  - split; [constructor | reflexivity].
Qed.

(** A match of [Star r] on a non-empty string starts with a non-empty
    match of [r]. *)
Lemma Matches_Star_cons (r : regex) (s : jsstring) :
  Matches (Star r) s ->
  forall c t, s = c :: t ->
  exists u v, t = u ++ v /\ Matches r (c :: u) /\ Matches (Star r) v.
Proof.
  intros H. remember (Star r) as q eqn:Hq. revert Hq.
  induction H as [| | | | | r' | r' u v Hu _ Hv IHv]; try discriminate.
  intros Hq c t Heq. injection Hq as ->.
  destruct u as [| c' u'].
  - simpl in Heq. now apply IHv.
  - simpl in Heq. injection Heq as -> <-. now exists u', v.
Qed.

Lemma deriv_Matches (r : regex) :
  forall c s, Matches (deriv c r) s <-> Matches r (c :: s).
Proof.
  induction r as [| | p | r IHr q IHq | r IHr q IHq | r IHr];
    intros c s; simpl.
  - split; inversion 1.
  - split; inversion 1.
  - destruct (p c) eqn:Hp; split.
    + inversion 1; subst. now constructor.
    + inversion 1; subst. constructor.
    + inversion 1.
    + inversion 1; subst. congruence.
  - assert (Hcat : Matches (Cat (deriv c r) q) s ->
                   Matches (Cat r q) (c :: s)).
    { inversion 1 as [| | r' s' u v Hu Hv | | | |]; subst.
      apply IHr in Hu. exact (MCat Hu Hv). }
    assert (Hinv : Matches (Cat r q) (c :: s) ->
                   (exists u v, s = u ++ v /\ Matches r (c :: u)
                                /\ Matches q v)
                   \/ (Matches r [] /\ Matches q (c :: s))).
    { inversion 1 as [| | r' s' u v Hu Hv | | | |]; subst.
      match goal with Heq : u ++ v = c :: s |- _ =>
        destruct u as [| c' u']; simpl in Heq;
          [ subst v; right; now split
          | injection Heq as -> <-; left; now exists u', v ]
      end. }
    destruct (nullable r) eqn:Hn; split.
    + inversion 1 as [| | | r' s' u Hu | r' s' u Hu | |]; subst;
        [now apply Hcat |].
      apply nullable_Matches in Hn. apply IHq in Hu.
      exact (MCat (u := []) Hn Hu).
    + intros H. destruct (Hinv H) as [(u & v & -> & Hu & Hv) | [_ Hq]].
      * apply MAltL. apply IHr in Hu. exact (MCat Hu Hv).
      * apply MAltR. now apply IHq.
    + exact Hcat.
    + intros H. destruct (Hinv H) as [(u & v & -> & Hu & Hv) | [Hr _]].
      * apply IHr in Hu. exact (MCat Hu Hv).
      * apply nullable_Matches in Hr. congruence.
  - split.
    + inversion 1; subst; [apply MAltL | apply MAltR];
        [now apply IHr | now apply IHq].
    + inversion 1; subst; [apply MAltL | apply MAltR];
        [now apply IHr | now apply IHq].
  - split.
    + inversion 1 as [| | r' s' u v Hu Hv | | | |]; subst.
      apply IHr in Hu. exact (MStarS Hu Hv).
    + intros H.
      destruct (Matches_Star_cons H eq_refl) as (u & v & -> & Hu & Hv).
      apply IHr in Hu. exact (MCat Hu Hv).
Qed.

(** [/^r$/.test(s)] holds exactly when [s] is in the language. *)
Lemma test_anchored_Matches (s : jsstring) :
  forall r, test_anchored r s = true <-> Matches r s.
Proof.
  induction s as [| c s IH]; intros r; simpl.
  - apply nullable_Matches.
  - rewrite IH. apply deriv_Matches.
Qed.

(** [/^r/.test(s)] holds exactly when a prefix of [s] is in the
    language. *)
Lemma test_prefix_Matches (s : jsstring) :
  forall r, test_prefix r s = true <->
            exists u v, s = u ++ v /\ Matches r u.
Proof.
  induction s as [| c s IH]; intros r; simpl.
  - rewrite orb_false_r, nullable_Matches. split.
    + intros H. now exists [], [].
    + intros (u & v & Heq & H). symmetry in Heq.
      destruct (app_eq_nil _ _ Heq) as [-> _]. exact H.
  - rewrite orb_true_iff, IH, nullable_Matches. split.
    + intros [H | (u & v & -> & H)].
      * now exists [], (c :: s).
      * exists (c :: u), v. split; [reflexivity |]. now apply deriv_Matches.
    + intros ([| c' u] & v & Heq & H).
      * now left.
      * right. simpl in Heq. injection Heq as <- ->.
        exists u, v. split; [reflexivity |]. now apply deriv_Matches.
Qed.

Lemma Matches_Class_Cat (p : N -> bool) (r : regex) (s : jsstring) :
  Matches (Cat (Class p) r) s <->
  exists c t, s = c :: t /\ p c = true /\ Matches r t.
Proof.
  split.
  - inversion 1 as [| | r' s' u v Hu Hv | | | |]; subst.
    inversion Hu as [| p' c Hc | | | | |]; subst. now exists c, v.
  - intros (c & t & -> & Hp & Ht).
    exact (MCat (MClass p c Hp) Ht).
Qed.

Lemma Matches_Class (p : N -> bool) (s : jsstring) :
  Matches (Class p) s <-> exists c, s = [c] /\ p c = true.
Proof.
  split.
  - inversion 1 as [| p' c Hc | | | | |]; subst. now exists c.
  - intros (c & -> & Hp). now constructor.
Qed.

Lemma Matches_Star_Class (p : N -> bool) (s : jsstring) :
  Matches (Star (Class p)) s <-> forallb p s = true.
Proof.
  split.
  - intros H. remember (Star (Class p)) as q eqn:Hq. revert Hq.
    induction H as [| | | | | r' | r' u v Hu _ Hv IHv]; try discriminate.
    + reflexivity.
    + intros Hq. injection Hq as ->.
      inversion Hu as [| p' c Hc | | | | |]; subst.
      simpl. now rewrite Hc, IHv.
  - induction s as [| c s IH]; simpl; [constructor |].
    rewrite andb_true_iff. intros [Hc Hs].
    exact (MStarS (MClass p c Hc) (IH Hs)).
Qed.

(** [[p]+] matches the non-empty strings of characters in [p]. *)
Lemma Matches_Plus_Class (p : N -> bool) (s : jsstring) :
  Matches (Plus (Class p)) s <-> s <> [] /\ forallb p s = true.
Proof.
  unfold Plus. rewrite Matches_Class_Cat. split.
  - intros (c & t & -> & Hp & Ht). apply Matches_Star_Class in Ht.
    split; [discriminate |]. simpl. now rewrite Hp, Ht.
  - intros [Hne Hall]. destruct s as [| c t]; [contradiction |].
    simpl in Hall. apply andb_true_iff in Hall. destruct Hall as [Hc Ht].
    exists c, t. repeat split; [exact Hc |]. now apply Matches_Star_Class.
Qed.

End RegexFacts.


(** ** The shapes [isValidEmail] and [isValidStoreUrl] accept *)

Section ShapeFacts.

Import Lang Page.

Lemma Matches_Cat (r q : regex) (s : jsstring) :
  Matches (Cat r q) s <->
  exists u v, s = u ++ v /\ Matches r u /\ Matches q v.
Proof.
  split.
  - inversion 1 as [| | r' s' u v Hu Hv | | | |]; subst. now exists u, v.
  - intros (u & v & -> & Hu & Hv). exact (MCat Hu Hv).
Qed.

Lemma Matches_Chr_Cat (a : Ascii.ascii) (r : regex) (s : jsstring) :
  Matches (Cat (Chr a) r) s <->
  exists t, s = Ascii.N_of_ascii a :: t /\ Matches r t.
Proof.
  unfold Chr. rewrite Matches_Class_Cat. split.
  - intros (c & t & -> & Hc & Ht). apply N.eqb_eq in Hc. subst c.
    now exists t.
  - intros (t & -> & Ht). exists (Ascii.N_of_ascii a), t.
    repeat split; [apply N.eqb_refl | exact Ht].
Qed.

Lemma Matches_Opt (r : regex) (s : jsstring) :
  Matches (Opt r) s <-> Matches r s \/ s = [].
Proof.
  unfold Opt. split.
  - inversion 1 as [| | | r' s' u Hu | r' s' u Hu | |]; subst;
      [now left | right; now inversion Hu].
  - intros [H | ->]; [now apply MAltL | apply MAltR; constructor].
Qed.

(** The two cases of a letter fold to the small one. *)
Lemma ChrI_fold (lower upper : Ascii.ascii) :
  (Ascii.N_of_ascii upper + 32 = Ascii.N_of_ascii lower)%N ->
  (65 <= Ascii.N_of_ascii upper <= 90)%N ->
  forall c,
    (N.eqb (Ascii.N_of_ascii lower) c || N.eqb (Ascii.N_of_ascii upper) c)
    = true
    <-> asciiFold c = Ascii.N_of_ascii lower.
Proof.
  intros Hlu Hup c. unfold asciiFold.
  rewrite orb_true_iff, !N.eqb_eq.
  destruct ((65 <=? c) && (c <=? 90))%N eqn:E.
  - apply andb_true_iff in E. rewrite !N.leb_le in E. lia.
  - apply andb_false_iff in E. rewrite !N.leb_gt in E. lia.
Qed.

Lemma Matches_ChrI_Cat (lower upper : Ascii.ascii) (r : regex)
    (s : jsstring) :
  (Ascii.N_of_ascii upper + 32 = Ascii.N_of_ascii lower)%N ->
  (65 <= Ascii.N_of_ascii upper <= 90)%N ->
  Matches (Cat (ChrI lower upper) r) s <->
  exists c t, s = c :: t /\ asciiFold c = Ascii.N_of_ascii lower
              /\ Matches r t.
Proof.
  intros Hlu Hup. unfold ChrI. rewrite Matches_Class_Cat.
  split; intros (c & t & -> & Hc & Ht); exists c, t;
    (repeat split; [| exact Ht]); now apply (ChrI_fold _ _ Hlu Hup).
Qed.

(** A code unit that folds to a character that is no letter is that
    character. *)
Lemma asciiFold_other (c y : N) :
  (y < 65)%N -> asciiFold c = y <-> c = y.
Proof.
  intros Hy. unfold asciiFold.
  destruct ((65 <=? c) && (c <=? 90))%N eqn:E.
  - apply andb_true_iff in E. rewrite !N.leb_le in E. lia.
  - reflexivity.
Qed.

End ShapeFacts.

(** X1.  [isValidEmail] accepts exactly the values that, trimmed, read
    [a@b.c] with [a], [b] and [c] non-empty and free of white space
    and of [@]. *)
Theorem isValidEmail_shape (value : jsstring) :
  Page.isValidEmail value = true <->
  exists a b c,
    trim value = a ++ lit "@" ++ b ++ lit "." ++ c
    /\ a <> [] /\ b <> [] /\ c <> []
    /\ forallb Lang.plain a = true
    /\ forallb Lang.plain b = true
    /\ forallb Lang.plain c = true.
Proof.
  unfold Page.isValidEmail, Page.email_re.
  rewrite test_anchored_Matches, Matches_Cat.
  change Page.notSpaceNorAt with (Class Lang.plain).
  split.
  - intros (a & v & Hv & Ha & Hrest).
    apply Matches_Chr_Cat in Hrest. destruct Hrest as (t & -> & Ht).
    apply Matches_Cat in Ht. destruct Ht as (b & w & -> & Hb & Hw).
    apply Matches_Chr_Cat in Hw. destruct Hw as (c & -> & Hc).
    apply Matches_Plus_Class in Ha, Hb, Hc.
    exists a, b, c. now repeat split.
  - intros (a & b & c & Heq & Ha & Hb & Hc & Pa & Pb & Pc).
    exists a, (lit "@" ++ b ++ lit "." ++ c).
    split; [exact Heq |]. split; [now apply Matches_Plus_Class |].
    apply Matches_Chr_Cat. exists (b ++ lit "." ++ c).
    split; [reflexivity |]. apply Matches_Cat.
    exists b, (lit "." ++ c). split; [reflexivity |].
    split; [now apply Matches_Plus_Class |].
    apply Matches_Chr_Cat. exists c. split; [reflexivity |].
    now apply Matches_Plus_Class.
Qed.

(** X2.  [isValidStoreUrl] accepts exactly the values that, trimmed,
    start with [http://] or [https://] in any mix of cases, followed
    by at least one character that is not a line terminator; what comes
    after that character is not looked at. *)
Theorem isValidStoreUrl_shape (value : jsstring) :
  Page.isValidStoreUrl value = true <->
  exists scheme c rest,
    trim value = scheme ++ c :: rest
    /\ (List.map Lang.asciiFold scheme = lit "http://"
        \/ List.map Lang.asciiFold scheme = lit "https://")
    /\ isLineTerminator c = false.
Proof.
  unfold Page.isValidStoreUrl, Page.storeUrl_re.
  rewrite test_prefix_Matches.
  split.
  - intros (u & v & Heq & Hu).
    apply Matches_ChrI_Cat in Hu; [| reflexivity | cbv; intuition discriminate].
    destruct Hu as (c1 & t1 & -> & F1 & Hu).
    apply Matches_ChrI_Cat in Hu; [| reflexivity | cbv; intuition discriminate].
    destruct Hu as (c2 & t2 & -> & F2 & Hu).
    apply Matches_ChrI_Cat in Hu; [| reflexivity | cbv; intuition discriminate].
    destruct Hu as (c3 & t3 & -> & F3 & Hu).
    apply Matches_ChrI_Cat in Hu; [| reflexivity | cbv; intuition discriminate].
    destruct Hu as (c4 & t4 & -> & F4 & Hu).
    apply Matches_Cat in Hu. destruct Hu as (o & t5 & -> & Ho & Hu).
    apply Matches_Chr_Cat in Hu. destruct Hu as (t6 & -> & Hu).
    apply Matches_Chr_Cat in Hu. destruct Hu as (t7 & -> & Hu).
    apply Matches_Chr_Cat in Hu. destruct Hu as (t8 & -> & Hu).
    apply Matches_Plus_Class in Hu. destruct Hu as [Hne Hall].
    destruct t8 as [| c w]; [contradiction |].
    simpl in Hall. apply andb_true_iff in Hall. destruct Hall as [Hc _].
    apply negb_true_iff in Hc.
    apply Matches_Opt in Ho. destruct Ho as [Ho | ->].
    + unfold ChrI in Ho. apply Matches_Class in Ho.
      destruct Ho as (c5 & -> & F5).
      apply (@ChrI_fold "s"%char "S"%char) in F5; [| reflexivity | cbv; intuition discriminate].
      exists [c1; c2; c3; c4; c5; 58; 47; 47]%N, c, (w ++ v).
      split; [rewrite Heq; simpl; rewrite <- ?app_assoc; reflexivity |].
      split; [right | exact Hc].
      simpl. now rewrite F1, F2, F3, F4, F5.
    + exists [c1; c2; c3; c4; 58; 47; 47]%N, c, (w ++ v).
      split; [rewrite Heq; simpl; rewrite <- ?app_assoc; reflexivity |].
      split; [left | exact Hc].
      simpl. now rewrite F1, F2, F3, F4.
  - intros (scheme & c & rest & Heq & Hs & Hc).
    exists (scheme ++ [c]), rest.
    split; [rewrite Heq; rewrite <- ?app_assoc; reflexivity |].
    assert (Hplus : Lang.Matches (Plus Page.anyChar) [c]).
    { apply Matches_Plus_Class. split; [discriminate |].
      simpl. now rewrite Hc. }
    assert (Htail : forall o,
              Lang.Matches (Opt (ChrI "s" "S")) o ->
              Lang.Matches
                (Cat (Opt (ChrI "s" "S"))
                   (Cat (Chr ":") (Cat (Chr "/") (Cat (Chr "/")
                      (Plus Page.anyChar)))))
                (o ++ [58; 47; 47; c]%N)).
    { intros o Ho. apply Matches_Cat. exists o, [58; 47; 47; c]%N.
      split; [reflexivity |]. split; [exact Ho |].
      apply Matches_Chr_Cat. eexists. split; [reflexivity |].
      apply Matches_Chr_Cat. eexists. split; [reflexivity |].
      apply Matches_Chr_Cat. eexists. split; [reflexivity |].
      exact Hplus. }
    assert (Hhead : forall c1 c2 c3 c4 t,
              Lang.asciiFold c1 = 104%N -> Lang.asciiFold c2 = 116%N ->
              Lang.asciiFold c3 = 116%N -> Lang.asciiFold c4 = 112%N ->
              Lang.Matches
                (Cat (Opt (ChrI "s" "S"))
                   (Cat (Chr ":") (Cat (Chr "/") (Cat (Chr "/")
                      (Plus Page.anyChar))))) t ->
              Lang.Matches Page.storeUrl_re (c1 :: c2 :: c3 :: c4 :: t)).
    { intros c1 c2 c3 c4 t F1 F2 F3 F4 Ht. unfold Page.storeUrl_re.
      apply Matches_ChrI_Cat; [reflexivity | cbv; intuition discriminate |].
      exists c1, (c2 :: c3 :: c4 :: t). repeat split; [exact F1 |].
      apply Matches_ChrI_Cat; [reflexivity | cbv; intuition discriminate |].
      exists c2, (c3 :: c4 :: t). repeat split; [exact F2 |].
      apply Matches_ChrI_Cat; [reflexivity | cbv; intuition discriminate |].
      exists c3, (c4 :: t). repeat split; [exact F3 |].
      apply Matches_ChrI_Cat; [reflexivity | cbv; intuition discriminate |].
      exists c4, t. now repeat split. }
    destruct Hs as [Hs | Hs].
    + destruct scheme as [| c1 [| c2 [| c3 [| c4 [| c5 [| c6 [| c7 [| c8 t]]]]]]]];
        try discriminate Hs.
      simpl in Hs. injection Hs as F1 F2 F3 F4 F5 F6 F7.
      apply (proj1 (@asciiFold_other c5 58%N eq_refl)) in F5.
      apply (proj1 (@asciiFold_other c6 47%N eq_refl)) in F6.
      apply (proj1 (@asciiFold_other c7 47%N eq_refl)) in F7. subst c5 c6 c7.
      apply (Hhead c1 c2 c3 c4 ([] ++ [58; 47; 47; c]%N) F1 F2 F3 F4).
      apply Htail. apply Matches_Opt. now right.
    + destruct scheme
        as [| c1 [| c2 [| c3 [| c4 [| c5 [| c6 [| c7 [| c8 [| c9 t]]]]]]]]];
        try discriminate Hs.
      simpl in Hs. injection Hs as F1 F2 F3 F4 F5 F6 F7 F8.
      apply (proj1 (@asciiFold_other c6 58%N eq_refl)) in F6.
      apply (proj1 (@asciiFold_other c7 47%N eq_refl)) in F7.
      apply (proj1 (@asciiFold_other c8 47%N eq_refl)) in F8. subst c6 c7 c8.
      apply (Hhead c1 c2 c3 c4 ([c5] ++ [58; 47; 47; c]%N) F1 F2 F3 F4).
      apply Htail. apply Matches_Opt. left. unfold ChrI.
      apply Matches_Class. exists c5. split; [reflexivity |].
      apply (@ChrI_fold "s"%char "S"%char);
        [reflexivity | cbv; intuition discriminate | exact F5].
Qed.


(** ** The form: errors, edits and the phone field *)

Section FormFacts.

Import Page Widgets.

Lemma obj_get_set_same (k : FieldKey) (v : option jsstring) (o : FormErrors) :
  obj_get k (obj_set k v o) = v.
Proof.
  induction o as [| [k' v'] o IH]; simpl.
  - now destruct k.
  - destruct (FieldKey_eqb k k') eqn:E; simpl; rewrite ?E; [| exact IH].
    now destruct k.
Qed.

Lemma FieldKey_eqb_eq (a b : FieldKey) : FieldKey_eqb a b = true <-> a = b.
Proof. destruct a, b; simpl; split; (reflexivity || discriminate). Qed.

Lemma obj_get_set_other (k k' : FieldKey) (v : option jsstring)
    (o : FormErrors) :
  FieldKey_eqb k k' = false ->
  obj_get k' (obj_set k v o) = obj_get k' o.
Proof.
  intros Hne.
  assert (Hsym : FieldKey_eqb k' k = false) by (now destruct k, k').
  induction o as [| [k0 v0] o IH]; simpl.
  - now rewrite Hsym.
  - destruct (FieldKey_eqb k k0) eqn:E; simpl.
    + apply FieldKey_eqb_eq in E. subst k0. now rewrite Hsym.
    + now rewrite IH.
Qed.

Lemma getValue_setValue (k k' : FieldKey) (x : jsstring) (values : FormValues) :
  getValue k' (setValue k x values)
  = if FieldKey_eqb k k' then x else getValue k' values.
Proof. now destruct k, k'. Qed.

(** A stored phone value that the mask leaves alone. *)
Lemma formatPhoneNumber_fixed (s : jsstring) :
  formatPhoneNumber (formatPhoneNumber s) = formatPhoneNumber s.
Proof.
  unfold formatPhoneNumber at 1 3.
  assert (Hd : getPhoneDigits (formatPhoneNumber s) = getPhoneDigits s).
  { rewrite (getPhoneDigits_eq (formatPhoneNumber s)).
    rewrite formatPhoneNumber_digits. apply firstn_all2.
    apply getPhoneDigits_length. }
  now rewrite Hd.
Qed.

Lemma getPhoneDigits_formatPhoneNumber (s : jsstring) :
  getPhoneDigits (formatPhoneNumber s) = getPhoneDigits s.
Proof.
  rewrite (getPhoneDigits_eq (formatPhoneNumber s)).
  rewrite formatPhoneNumber_digits. apply firstn_all2.
  apply getPhoneDigits_length.
Qed.

Lemma removelast_forallb (A : Type) (p : A -> bool) (l : list A) :
  forallb p l = true -> forallb p (removelast l) = true.
Proof.
  induction l as [| a [| b l] IH]; simpl; try reflexivity.
  rewrite !andb_true_iff. intros (Ha & Hb & Hl). split; [exact Ha |].
  apply IH. simpl. now rewrite Hb, Hl.
Qed.

Lemma removelast_le (A : Type) (l : list A) :
  length (removelast l) <= length l.
Proof.
  induction l as [| a l IH]; [apply le_n |].
  destruct l as [| b l]; [simpl; lia |].
  change (removelast (a :: b :: l)) with (a :: removelast (b :: l)).
  simpl in *. lia.
Qed.

(** The digits of a masked value without its last character are the
    digits without the last one. *)
Lemma PhoneMask_removelast (d m : jsstring) :
  PhoneMask d m -> forallb isDigit d = true ->
  filter isDigit (removelast m) = removelast d.
Proof.
  intros H Hd.
  assert (Ho : filter isDigit (lit "(") = []) by reflexivity.
  assert (Hp : filter isDigit (lit ") ") = []) by reflexivity.
  assert (Hm : filter isDigit (lit "-") = []) by reflexivity.
  destruct H as [d _ | a b Ha Hb | a b c Ha Hb Hc].
  - apply filter_all. now apply removelast_forallb.
  - assert (Hne : b <> []) by (destruct b; [simpl in Hb; lia | discriminate]).
    rewrite forallb_app in Hd. apply andb_true_iff in Hd.
    destruct Hd as [Da Db].
    rewrite (removelast_app a Hne).
    replace (lit "(" ++ a ++ lit ") " ++ b)
      with ((lit "(" ++ a ++ lit ") ") ++ b)
      by (now rewrite <- !app_assoc).
    rewrite (removelast_app _ Hne), !filter_app.
    rewrite (filter_all _ _ Da), (filter_all _ _ (removelast_forallb _ _ Db)).
    rewrite Ho, Hp, app_nil_r. reflexivity.
  - assert (Hne : c <> []) by (destruct c; [simpl in Hc; lia | discriminate]).
    rewrite !forallb_app in Hd. apply andb_true_iff in Hd.
    destruct Hd as [Da Hd]. apply andb_true_iff in Hd.
    destruct Hd as [Db Dc].
    replace (a ++ b ++ c) with ((a ++ b) ++ c) by (now rewrite <- app_assoc).
    rewrite (removelast_app _ Hne).
    replace (lit "(" ++ a ++ lit ") " ++ b ++ lit "-" ++ c)
      with ((lit "(" ++ a ++ lit ") " ++ b ++ lit "-") ++ c)
      by (now rewrite <- !app_assoc).
    rewrite (removelast_app _ Hne), !filter_app.
    rewrite (filter_all _ _ Da), (filter_all _ _ Db),
            (filter_all _ _ (removelast_forallb _ _ Dc)).
    rewrite Ho, Hp, Hm, app_nil_r. cbn [app]. now rewrite <- app_assoc.
Qed.

(** The mask adds at most four characters. *)
Lemma PhoneMask_length (d m : jsstring) :
  PhoneMask d m -> length d <= length m <= length d + 4.
Proof.
  intros [d' H | a b Ha Hb | a b c Ha Hb Hc]; rewrite ?length_app;
    change (length (lit "(")) with 1; change (length (lit ") ")) with 2;
    change (length (lit "-")) with 1; lia.
Qed.

(** [/^\d$/] accepts the one-character strings that are a digit. *)
Lemma digit_re_iff (k : jsstring) :
  test_anchored digit_re k = true <-> exists d, k = [d] /\ isDigit d = true.
Proof.
  unfold digit_re. rewrite test_anchored_Matches. apply Matches_Class.
Qed.

End FormFacts.


Section ValidateFieldFacts.

Import Page.

Variable v : FormValues.

Local Abbreviation piece c k m :=
  (if c then [(k, Some (lit m))] else [] : FormErrors).

(** The object [validateForm] builds, entry by entry. *)
Lemma validateForm_app :
  validateForm v
  = piece (negb (truthy (trim (fullName v)))) Key_fullName
      "Full name is required."
    ++ piece (negb (truthy (trim (phoneNumber v)))) Key_phoneNumber
         "Phone number is required."
    ++ piece (truthy (trim (phoneNumber v))
              && negb (length (getPhoneDigits (phoneNumber v)) =? 10))
         Key_phoneNumber "Enter a valid 10-digit phone number."
    ++ piece (negb (truthy (trim (email v)))) Key_email "Email is required."
    ++ piece (truthy (trim (email v)) && negb (isValidEmail (email v)))
         Key_email "Please enter a valid email."
    ++ piece (truthy (trim (storeUrl v))
              && negb (isValidStoreUrl (storeUrl v)))
         Key_storeUrl "Use a full URL, including https://"
    ++ piece (negb (truthy (revenueStream v))) Key_revenueStream
         "Select your revenue stream.".
Proof.
  unfold validateForm.
  generalize (truthy (trim (fullName v))),
             (truthy (trim (phoneNumber v))),
             (length (getPhoneDigits (phoneNumber v)) =? 10),
             (truthy (trim (email v))),
             (isValidEmail (email v)),
             (truthy (trim (storeUrl v)) && negb (isValidStoreUrl (storeUrl v))),
             (truthy (revenueStream v)).
  intros [] [] [] [] [] [] []; reflexivity.
Qed.

Ltac by_cases :=
  rewrite validateForm_app;
  generalize (truthy (trim (fullName v))),
             (truthy (trim (phoneNumber v))),
             (length (getPhoneDigits (phoneNumber v)) =? 10),
             (truthy (trim (email v))),
             (isValidEmail (email v)),
             (truthy (trim (storeUrl v))),
             (isValidStoreUrl (storeUrl v)),
             (truthy (revenueStream v));
  intros [] [] [] [] [] [] [] []; reflexivity.

Lemma validateForm_fullName :
  obj_get Key_fullName (validateForm v)
  = if truthy (trim (fullName v)) then None
    else Some (lit "Full name is required.").
Proof. by_cases. Qed.

Lemma validateForm_phoneNumber :
  obj_get Key_phoneNumber (validateForm v)
  = if truthy (trim (phoneNumber v))
    then if length (getPhoneDigits (phoneNumber v)) =? 10 then None
         else Some (lit "Enter a valid 10-digit phone number.")
    else Some (lit "Phone number is required.").
Proof. by_cases. Qed.

Lemma validateForm_email :
  obj_get Key_email (validateForm v)
  = if truthy (trim (email v))
    then if isValidEmail (email v) then None
         else Some (lit "Please enter a valid email.")
    else Some (lit "Email is required.").
Proof. by_cases. Qed.

Lemma validateForm_storeUrl :
  obj_get Key_storeUrl (validateForm v)
  = if truthy (trim (storeUrl v)) && negb (isValidStoreUrl (storeUrl v))
    then Some (lit "Use a full URL, including https://")
    else None.
Proof. by_cases. Qed.

Lemma validateForm_revenueStream :
  obj_get Key_revenueStream (validateForm v)
  = if truthy (revenueStream v) then None
    else Some (lit "Select your revenue stream.").
Proof. by_cases. Qed.

Lemma validateForm_message : obj_get Key_message (validateForm v) = None.
Proof. by_cases. Qed.

Lemma validateForm_Object_keys :
  Object_keys (validateForm v)
  = filter
      (fun k => match obj_get k (validateForm v) with
                | Some _ => true
                | None => false
                end)
      [ Key_fullName; Key_phoneNumber; Key_email;
        Key_storeUrl; Key_revenueStream ].
Proof. by_cases. Qed.

Lemma validateForm_texts :
  forallb (fun entry => match snd entry with
                        | Some (_ :: _) => true
                        | _ => false
                        end) (validateForm v) = true.
Proof. by_cases. Qed.

End ValidateFieldFacts.


(** X3.  Field by field, [validateForm] reports an error exactly when
    the matching test of [isFormReady] fails, the revenue stream
    excepted (tested untrimmed); it never reports one for the message.
    A blank phone number or e-mail gets the [required] text, a
    non-blank invalid one the other text. *)
Theorem validateForm_fields (v : Page.FormValues) :
  (Page.obj_get Page.Key_fullName (Page.validateForm v) = None
   <-> truthy (trim (Page.fullName v)) = true)
  /\ (Page.obj_get Page.Key_phoneNumber (Page.validateForm v) = None
      <-> length (Page.getPhoneDigits (Page.phoneNumber v)) = 10)
  /\ (Page.obj_get Page.Key_email (Page.validateForm v) = None
      <-> Page.isValidEmail (Page.email v) = true)
  /\ (Page.obj_get Page.Key_storeUrl (Page.validateForm v) = None
      <-> trim (Page.storeUrl v) = []
          \/ Page.isValidStoreUrl (Page.storeUrl v) = true)
  /\ (Page.obj_get Page.Key_revenueStream (Page.validateForm v) = None
      <-> Page.revenueStream v <> [])
  /\ Page.obj_get Page.Key_message (Page.validateForm v) = None
  /\ (trim (Page.phoneNumber v) = [] ->
      Page.obj_get Page.Key_phoneNumber (Page.validateForm v)
      = Some (lit "Phone number is required."))
  /\ (trim (Page.email v) = [] ->
      Page.obj_get Page.Key_email (Page.validateForm v)
      = Some (lit "Email is required.")).
Proof.
  pose proof (ten_digits_not_blank (Page.phoneNumber v)) as Hphone.
  pose proof (@isValidEmail_not_blank (Page.email v)) as Hemail.
  rewrite <- Nat.eqb_eq in Hphone. rewrite <- Nat.eqb_eq.
  rewrite validateForm_fullName, validateForm_phoneNumber,
          validateForm_email, validateForm_storeUrl,
          validateForm_revenueStream, validateForm_message.
  split; [| split; [| split; [| split; [| split; [| split; [| split]]]]]].
  - destruct (truthy (trim (Page.fullName v))); split;
      (reflexivity || discriminate).
  - destruct (truthy (trim (Page.phoneNumber v))),
             (length (Page.getPhoneDigits (Page.phoneNumber v)) =? 10);
      split; intros H; try reflexivity; try discriminate H.
    discriminate (Hphone eq_refl).
  - destruct (truthy (trim (Page.email v))),
             (Page.isValidEmail (Page.email v));
      split; intros H; try reflexivity; try discriminate H.
    discriminate (Hemail eq_refl).
  - destruct (trim (Page.storeUrl v)) as [| c s],
             (Page.isValidStoreUrl (Page.storeUrl v)); simpl;
      split; intros H; try reflexivity; try discriminate H; auto.
    destruct H as [H | H]; discriminate H.
  - destruct (Page.revenueStream v); simpl; split; intros H;
      try reflexivity; try discriminate H; congruence.
  - reflexivity.
  - intros H. now rewrite H.
  - intros H. now rewrite H.
Qed.

(** X4.  The keys of the object [validateForm] returns are the fields
    with an error, each once, in the order full name, phone number,
    e-mail, store URL, revenue stream; every entry holds a non-empty
    text. *)
Theorem validateForm_keys (v : Page.FormValues) :
  Page.Object_keys (Page.validateForm v)
  = filter
      (fun k => match Page.obj_get k (Page.validateForm v) with
                | Some _ => true
                | None => false
                end)
      [ Page.Key_fullName; Page.Key_phoneNumber; Page.Key_email;
        Page.Key_storeUrl; Page.Key_revenueStream ]
  /\ NoDup (Page.Object_keys (Page.validateForm v))
  /\ Forall (fun entry => exists text, snd entry = Some text /\ text <> [])
       (Page.validateForm v).
Proof.
  split; [apply validateForm_Object_keys |]. split.
  - rewrite validateForm_Object_keys. apply NoDup_filter.
    repeat constructor; simpl; intuition discriminate.
  - pose proof (validateForm_texts v) as H.
    rewrite forallb_forall in H. apply Forall_forall.
    intros entry Hin. specialize (H entry Hin).
    destruct (snd entry) as [[| c text] |]; try discriminate H.
    exists (c :: text). split; [reflexivity | discriminate].
Qed.

(** X5.  [handleChange] stores the value under its key (the phone
    number masked, any other field as typed) and leaves the other five
    fields alone; it clears the error of that field and the submit
    error, and keeps the errors of the other fields and both flags. *)
Theorem handleChange_effect (key : Page.FieldKey) (value : jsstring)
    (st : Page.LeadFormState) (other : Page.FieldKey) :
  let st' := Page.handleChange key value st in
  Widgets.getValue other (Page.values st')
  = (if Page.FieldKey_eqb key other
     then match key with
          | Page.Key_phoneNumber => Page.formatPhoneNumber value
          | _ => value
          end
     else Widgets.getValue other (Page.values st))
  /\ Page.obj_get other (Page.errors st')
     = (if Page.FieldKey_eqb key other then None
        else Page.obj_get other (Page.errors st))
  /\ Page.submitError st' = None
  /\ Page.isSubmitting st' = Page.isSubmitting st
  /\ Page.submitted st' = Page.submitted st.
Proof.
  cbv zeta. unfold Page.handleChange. cbn [Page.values Page.errors
    Page.submitError Page.isSubmitting Page.submitted].
  rewrite getValue_setValue. repeat split.
  destruct (Page.FieldKey_eqb key other) eqn:E.
  - apply FieldKey_eqb_eq in E. subst other. apply obj_get_set_same.
  - now apply obj_get_set_other.
Qed.

(** X6.  In every state the page can reach, the stored phone number is
    in masked form: the mask leaves it unchanged, it renders its own
    digits by [PhoneMask], and it holds at most ten digits and at most
    fourteen characters. *)
Theorem stored_phone_masked (ui : Page.UI) :
  Page.reachable ui ->
  let stored := Page.phoneNumber (Page.values (Page.form ui)) in
  Page.formatPhoneNumber stored = stored
  /\ Page.PhoneMask (Page.getPhoneDigits stored) stored
  /\ length (filter isDigit stored) <= 10
  /\ length stored <= 14.
Proof.
  intros R. cbv zeta.
  assert (Hfix : Page.formatPhoneNumber
                   (Page.phoneNumber (Page.values (Page.form ui)))
                 = Page.phoneNumber (Page.values (Page.form ui))).
  { induction R as [| ui ui' R IH S]; [reflexivity |].
    destruct S as [key value ui _ | ui _ | o ui _].
    - destruct key; try exact IH. apply formatPhoneNumber_fixed.
    - unfold Page.onSubmit, Page.handleSubmit_begin. cbn [Page.form].
      destruct (Page.validateForm (Page.values (Page.form ui))); exact IH.
    - unfold Page.onSettle, Page.handleSubmit_settle. cbn [Page.form].
      destruct o as [response | t]; [| exact IH].
      destruct (Page.ok response); [reflexivity | exact IH]. }
  set (stored := Page.phoneNumber (Page.values (Page.form ui))) in *.
  pose proof (formatPhoneNumber_PhoneMask stored) as HM.
  pose proof (formatPhoneNumber_digits stored) as HD.
  pose proof (getPhoneDigits_length stored) as HL.
  rewrite Hfix in HM, HD.
  repeat split; [exact Hfix | exact HM | rewrite HD; exact HL |].
  apply PhoneMask_length in HM. lia.
Qed.


(** X7.  [validateForm] and [isFormReady] agree on every form whose
    revenue stream is not emptied by trimming (as no option of the
    select is): no error is reported exactly when the form is ready. *)
Theorem validation_agrees_with_readiness (v : Page.FormValues) :
  truthy (trim (Page.revenueStream v)) = truthy (Page.revenueStream v) ->
  Page.validateForm v = [] <-> Page.isFormReady v = true.
Proof. apply validateForm_isFormReady_iff. Qed.


Section KeyFacts.

Import Page Widgets.

Lemma jsstring_eqb_eq (a b : jsstring) : JS.eqb a b = true <-> a = b.
Proof.
  unfold JS.eqb. destruct (list_eq_dec N.eq_dec a b) as [E | E]; split;
    intros H; try assumption; try reflexivity; try discriminate H;
    contradiction.
Qed.

Lemma includes_In (l : list jsstring) (k : jsstring) :
  includes l k = true <-> In k l.
Proof.
  unfold includes. rewrite existsb_exists. split.
  - intros (x & Hx & E). apply jsstring_eqb_eq in E. now subst x.
  - intros H. exists k. split; [exact H | now apply jsstring_eqb_eq].
Qed.

(** No allowed key is a single character. *)
Lemma allowedKeys_long (k : jsstring) :
  In k allowedKeys -> 3 <= length k.
Proof.
  unfold allowedKeys. simpl.
  intros [<- | [<- | [<- | [<- | [<- | [<- | [<- | []]]]]]]];
    cbn; lia.
Qed.

Lemma getPhoneDigits_room (s : jsstring) :
  length (getPhoneDigits s) < 10 -> getPhoneDigits s = filter isDigit s.
Proof.
  rewrite getPhoneDigits_eq. intros H.
  apply firstn_all2. rewrite length_firstn in H. lia.
Qed.

(** What lets a key through when no modifier is held. *)
Lemma onKeyDown_false_iff (values : FormValues) (event : KeyboardEvent) :
  ctrlKey event = false -> metaKey event = false -> altKey event = false ->
  onKeyDown values event = false <->
  In (key event) allowedKeys
  \/ exists d, key event = [d] /\ isDigit d = true
               /\ length (getPhoneDigits (phoneNumber values)) < 10.
Proof.
  intros Hc Hm Ha. unfold onKeyDown. rewrite Hc, Hm, Ha. cbn [orb].
  destruct (includes allowedKeys (key event)) eqn:Hin.
  - apply includes_In in Hin. split; [now left | reflexivity].
  - assert (Hnot : ~ In (key event) allowedKeys).
    { intros H. apply includes_In in H. congruence. }
    destruct (test_anchored digit_re (key event)) eqn:Hd; cbn [negb].
    + apply digit_re_iff in Hd. destruct Hd as (d & Hk & Hd).
      destruct (10 <=? length (getPhoneDigits (phoneNumber values))) eqn:Hl.
      * apply Nat.leb_le in Hl. split; [discriminate |].
        intros [H | (d' & _ & _ & H)]; [contradiction | lia].
      * apply Nat.leb_gt in Hl. split; [| reflexivity].
        intros _. right. now exists d.
    + split; [discriminate |].
      intros [H | (d & Hk & Hdig & _)]; [contradiction |].
      assert (test_anchored digit_re (key event) = true)
        by (apply digit_re_iff; now exists d).
      congruence.
Qed.

End KeyFacts.

(** X8.  A digit key that the phone field's [onKeyDown] lets through
    (no modifier held) goes in: wherever the cursor stands in the
    stored value, the digits after the change are the digits before
    the cursor, the new digit, and the digits after the cursor. *)
Theorem digit_keystroke_inserts (values : Page.FormValues)
    (event : Widgets.KeyboardEvent) (d : N) (before after : jsstring) :
  Widgets.ctrlKey event = false ->
  Widgets.metaKey event = false ->
  Widgets.altKey event = false ->
  Widgets.key event = [d] ->
  Widgets.onKeyDown values event = false ->
  Page.phoneNumber values = before ++ after ->
  isDigit d = true
  /\ Page.getPhoneDigits (Page.formatPhoneNumber (before ++ d :: after))
     = filter isDigit before ++ d :: filter isDigit after.
Proof.
  intros Hc Hm Ha Hk Hpass Hsplit.
  apply (onKeyDown_false_iff values event Hc Hm Ha) in Hpass.
  destruct Hpass as [Hin | (d' & Hk' & Hd & Hroom)].
  - apply allowedKeys_long in Hin. rewrite Hk in Hin. simpl in Hin. lia.
  - rewrite Hk in Hk'. injection Hk' as <-. split; [exact Hd |].
    rewrite getPhoneDigits_formatPhoneNumber.
    pose proof (getPhoneDigits_room _ Hroom) as Hall.
    rewrite Hall, Hsplit, filter_app, length_app in Hroom.
    rewrite getPhoneDigits_eq, filter_app. cbn [filter]. rewrite Hd.
    apply firstn_all2. rewrite length_app. simpl. lia.
Qed.

(** X9.  Deleting the last character of a masked phone value deletes
    its last digit and nothing else: after the mask is applied again
    the digits are the former ones without the last. *)
Theorem backspace_removes_last_digit (s : jsstring) :
  Page.getPhoneDigits
    (Page.formatPhoneNumber (removelast (Page.formatPhoneNumber s)))
  = removelast (Page.getPhoneDigits s).
Proof.
  rewrite getPhoneDigits_formatPhoneNumber, getPhoneDigits_eq.
  rewrite (PhoneMask_removelast (formatPhoneNumber_PhoneMask s)
             (getPhoneDigits_digits s)).
  apply firstn_all2.
  pose proof (removelast_le (Page.getPhoneDigits s)).
  pose proof (getPhoneDigits_length s). lia.
Qed.

(** X10.  The phone field's [onKeyDown] lets every key through while
    Ctrl, Meta or Alt is held.  Otherwise it lets through the seven
    deletion and navigation keys, and a single decimal digit while
    fewer than ten digits are stored; every other key is prevented. *)
Theorem onKeyDown_passes (values : Page.FormValues)
    (event : Widgets.KeyboardEvent) :
  Widgets.onKeyDown values event = false <->
  Widgets.ctrlKey event = true \/ Widgets.metaKey event = true
  \/ Widgets.altKey event = true
  \/ In (Widgets.key event) Widgets.allowedKeys
  \/ exists d, Widgets.key event = [d] /\ isDigit d = true
               /\ length (Page.getPhoneDigits (Page.phoneNumber values)) < 10.
Proof.
  destruct (Widgets.ctrlKey event) eqn:Hc;
    [unfold Widgets.onKeyDown; rewrite Hc; split; [now left | reflexivity] |].
  destruct (Widgets.metaKey event) eqn:Hm;
    [unfold Widgets.onKeyDown; rewrite Hc, Hm; split;
       [right; now left | reflexivity] |].
  destruct (Widgets.altKey event) eqn:Ha;
    [unfold Widgets.onKeyDown; rewrite Hc, Hm, Ha; split;
       [right; right; now left | reflexivity] |].
  rewrite (onKeyDown_false_iff values event Hc Hm Ha).
  intuition discriminate.
Qed.

(** X11.  When validation finds an error, [handleSubmit] issues no
    request, whatever [fetch] would do: it stores the errors and
    leaves the values, both flags and the submit error as they were. *)
Theorem handleSubmit_invalid (fetch : Page.FetchRequest -> Page.FetchOutcome)
    (st : Page.LeadFormState) :
  Page.validateForm (Page.values st) <> [] ->
  snd (Page.handleSubmit_begin st) = None
  /\ Page.handleSubmit fetch st
     = {| Page.values := Page.values st;
          Page.errors := Page.validateForm (Page.values st);
          Page.isSubmitting := Page.isSubmitting st;
          Page.submitted := Page.submitted st;
          Page.submitError := Page.submitError st |}.
Proof.
  intros H. unfold Page.handleSubmit.
  rewrite (handleSubmit_begin_invalid st H). split; reflexivity.
Qed.

(** X12.  A submitted form is final: in every reachable state where
    [submitted] is set the six fields are empty, no request is in
    flight, the flag is down, and no further event can occur. *)
Theorem submitted_terminal (ui : Page.UI) :
  Page.reachable ui ->
  Page.submitted (Page.form ui) = true ->
  Page.values (Page.form ui) = Page.initialFormValues
  /\ Page.inflight ui = 0
  /\ Page.isSubmitting (Page.form ui) = false
  /\ forall ui', ~ Page.step ui ui'.
Proof.
  intros R.
  assert (Inv : Page.submitted (Page.form ui) = true ->
                Page.values (Page.form ui) = Page.initialFormValues
                /\ Page.inflight ui = 0).
  { induction R as [| ui ui' R IH S]; [discriminate |].
    pose proof (reachable_guarded R) as G.
    destruct S as [key value ui Hs | ui Hoff | o ui Hpos].
    - cbn. congruence.
    - unfold Page.submitOffered in Hoff.
      apply andb_true_iff in Hoff. destruct Hoff as [Hs _].
      apply negb_true_iff in Hs.
      unfold Page.onSubmit, Page.handleSubmit_begin. cbn [Page.form].
      destruct (Page.validateForm (Page.values (Page.form ui))); cbn;
        congruence.
    - destruct (Page.submitted (Page.form ui)) eqn:Hs.
      + destruct (IH eq_refl) as [_ H0]. lia.
      + assert (H1 : Page.inflight ui = 1)
          by (destruct G as [[G0 _] | [G1 _]]; lia).
        unfold Page.onSettle, Page.handleSubmit_settle.
        cbn [Page.form Page.inflight]. rewrite H1.
        destruct o as [response | t]; [| cbn; congruence].
        destruct (Page.ok response); cbn; [now split | congruence]. }
  intros Hs. destruct (Inv Hs) as [Hv H0].
  pose proof (reachable_guarded R) as G.
  repeat split; try assumption.
  - destruct G as [[_ G] | [G _]]; [exact G | lia].
  - intros ui' S. destruct S as [key value ui H | ui Hoff | o ui Hpos].
    + congruence.
    + unfold Page.submitOffered in Hoff. rewrite Hs in Hoff. discriminate.
    + lia.
Qed.

(** X13.  The masked phone value is as long as its digits plus the
    mask characters in use: none up to three digits, three for four to
    six, four from seven on.  So it never exceeds fourteen characters,
    and has fourteen exactly when it holds ten digits. *)
Theorem formatPhoneNumber_length (s : jsstring) :
  let n := length (Page.getPhoneDigits s) in
  length (Page.formatPhoneNumber s)
  = n + (if n <=? 3 then 0 else if n <=? 6 then 3 else 4)
  /\ length (Page.formatPhoneNumber s) <= 14
  /\ (length (Page.formatPhoneNumber s) = 14 <-> n = 10).
Proof.
  cbv zeta. pose proof (getPhoneDigits_length s) as H10.
  assert (Hlen : length (Page.formatPhoneNumber s)
                 = length (Page.getPhoneDigits s)
                   + (if length (Page.getPhoneDigits s) <=? 3 then 0
                      else if length (Page.getPhoneDigits s) <=? 6 then 3
                      else 4)).
  { destruct (Nat.leb_spec (length (Page.getPhoneDigits s)) 3) as [H3 | H3].
    - rewrite formatPhoneNumber_short by exact H3. lia.
    - destruct (Nat.leb_spec (length (Page.getPhoneDigits s)) 6) as [H6 | H6].
      + rewrite formatPhoneNumber_area by lia.
        rewrite !length_app, length_firstn, length_skipn.
        change (length (lit "(")) with 1. change (length (lit ") ")) with 2.
        lia.
      + rewrite formatPhoneNumber_full by lia.
        rewrite !length_app, !length_firstn, !length_skipn.
        change (length (lit "(")) with 1. change (length (lit ") ")) with 2.
        change (length (lit "-")) with 1. lia. }
  rewrite Hlen.
  destruct (Nat.leb_spec (length (Page.getPhoneDigits s)) 3);
    [| destruct (Nat.leb_spec (length (Page.getPhoneDigits s)) 6)];
    repeat split; lia.
Qed.

(** X14.  Two inputs are masked alike exactly when their first ten
    digits agree: the mask loses nothing of the digits it keeps. *)
Theorem formatPhoneNumber_injective (a b : jsstring) :
  Page.formatPhoneNumber a = Page.formatPhoneNumber b
  <-> Page.getPhoneDigits a = Page.getPhoneDigits b.
Proof.
  split.
  - intros H. rewrite <- (getPhoneDigits_formatPhoneNumber a), H.
    apply getPhoneDigits_formatPhoneNumber.
  - intros H. unfold Page.formatPhoneNumber. now rewrite H.
Qed.


(** ** More on [trim] *)

Section TrimFacts.

Lemma trimStart_idem (s : jsstring) : trimStart (trimStart s) = trimStart s.
Proof.
  destruct (trimStart_head s) as [E | (c & r & E & Hc)]; rewrite E.
  - reflexivity.
  - simpl. now rewrite Hc.
Qed.

Lemma trimStart_suffix (s : jsstring) :
  exists w, s = w ++ trimStart s /\ forallb isWhiteSpace w = true.
Proof.
  induction s as [| c r (w & Hw & Hall)]; [now exists [] |].
  simpl. destruct (isWhiteSpace c) eqn:Hc.
  - exists (c :: w). split; [simpl; now rewrite <- Hw |].
    simpl. now rewrite Hc.
  - now exists [].
Qed.

Lemma trimEnd_idem (t : jsstring) : trimEnd (trimEnd t) = trimEnd t.
Proof.
  unfold trimEnd. now rewrite rev_involutive, trimStart_idem.
Qed.

(** A first character that is not white space survives [trimEnd]. *)
Lemma trimEnd_head (c : N) (r : jsstring) :
  isWhiteSpace c = false -> exists r', trimEnd (c :: r) = c :: r'.
Proof.
  intros Hc. unfold trimEnd. simpl rev.
  destruct (trimStart_suffix (rev r ++ [c])) as (w & Hw & Hall).
  destruct (trimStart (rev r ++ [c])) as [| x T] eqn:E.
  - rewrite app_nil_r in Hw. rewrite <- Hw, forallb_app in Hall.
    simpl in Hall. rewrite Hc, andb_false_r in Hall. discriminate Hall.
  - destruct (@exists_last _ (x :: T)) as (T' & a & HT); [discriminate |].
    rewrite HT, app_assoc in Hw. apply app_inj_tail in Hw.
    destruct Hw as [_ <-]. rewrite HT, rev_app_distr. simpl.
    now exists (rev T').
Qed.

(** Trimming twice is trimming once. *)
Lemma trim_idem (s : jsstring) : trim (trim s) = trim s.
Proof.
  unfold trim.
  destruct (trimStart_head s) as [E | (c & r & E & Hc)]; rewrite E.
  - reflexivity.
  - destruct (@trimEnd_head c r Hc) as (r' & Hr). rewrite Hr.
    simpl trimStart. rewrite Hc, <- Hr. apply trimEnd_idem.
Qed.

End TrimFacts.

(** ** More on the endpoint *)

Section EndpointCases.

Import Route.

Variable srv : Server.

Lemma trimmedField_trimmed (body : JsValue) (name f : jsstring) :
  trimmedField (engine srv) body name = Normal f -> trim f = f.
Proof.
  unfold trimmedField.
  destruct (getField (engine srv) body name) as [[] | t]; try discriminate;
    intros H; injection H as <-; [reflexivity | reflexivity | apply trim_idem].
Qed.

(** The four ways a run of the handler can go. *)
Lemma POST_cases (rq : Completion JsValue) :
  (resendApiKey srv = None /\ POST srv rq = (notConfigured, []))
  \/ (exists t, POST srv rq = (POST_catch t, [ReadBody]))
  \/ POST srv rq = (missingFields, [ReadBody])
  \/ (exists key fullName phoneNumber email storeUrl revenueStream message,
        resendApiKey srv = Some key
        /\ fullName <> [] /\ email <> []
        /\ trim fullName = fullName /\ trim email = email
        /\ let mail := mailFor fullName phoneNumber email storeUrl
                         revenueStream message in
           POST srv rq = (afterRelay (resend_emails_send srv key mail),
                          [ReadBody; RelaySend key mail])).
Proof.
  unfold POST, POST_try.
  destruct (resendApiKey srv) as [k |] eqn:Hk; [| left; now split].
  right. destruct rq as [body | t].
  2:{ rewrite bind_perform_Throw. left. now exists t. }
  rewrite bind_perform_Normal.
  destruct (trimmedField (engine srv) body (lit "fullName")) as [f1 | t] eqn:E1;
    [rewrite bind_lift_Normal | rewrite bind_lift_Throw; left; now exists t].
  destruct (trimmedField (engine srv) body (lit "phoneNumber")) as [f2 | t];
    [rewrite bind_lift_Normal | rewrite bind_lift_Throw; left; now exists t].
  destruct (trimmedField (engine srv) body (lit "email")) as [f3 | t] eqn:E3;
    [rewrite bind_lift_Normal | rewrite bind_lift_Throw; left; now exists t].
  destruct (trimmedField (engine srv) body (lit "storeUrl")) as [f4 | t];
    [rewrite bind_lift_Normal | rewrite bind_lift_Throw; left; now exists t].
  destruct (trimmedField (engine srv) body (lit "revenueStream")) as [f5 | t];
    [rewrite bind_lift_Normal | rewrite bind_lift_Throw; left; now exists t].
  destruct (trimmedField (engine srv) body (lit "message")) as [f6 | t];
    [rewrite bind_lift_Normal | rewrite bind_lift_Throw; left; now exists t].
  destruct (negb (truthy f1) || negb (truthy f2) || negb (truthy f3)
            || negb (truthy f5)) eqn:Hreq.
  - right. left. reflexivity.
  - right. right. exists k, f1, f2, f3, f4, f5, f6.
    apply orb_false_iff in Hreq. destruct Hreq as [Hreq _].
    apply orb_false_iff in Hreq. destruct Hreq as [Hreq H3].
    apply orb_false_iff in Hreq. destruct Hreq as [H1 _].
    apply negb_false_iff in H1, H3.
    split; [reflexivity |].
    split; [now destruct f1 |]. split; [now destruct f3 |].
    split; [exact (@trimmedField_trimmed body _ f1 E1) |].
    split; [exact (@trimmedField_trimmed body _ f3 E3) |].
    cbv zeta. rewrite POST_send.
    now destruct (resend_emails_send srv k
                    (mailFor f1 f2 f3 f4 f5 f6)).
Qed.

Lemma afterRelay_shape (sent : Completion SendResult) :
  (afterRelay sent = {| status := 200; json := SuccessBody |}
   /\ sent = Normal {| error := None |})
  \/ exists m, json (afterRelay sent) = ErrorBody m
               /\ (status (afterRelay sent) = 500
                   \/ status (afterRelay sent) = 502).
Proof.
  destruct sent as [[[e |]] | t].
  - right. eexists. split; [reflexivity | now right].
  - left. now split.
  - right. destruct t; eexists; (split; [reflexivity | now left]).
Qed.

(** Every response is the success response or an error body with
    status 400, 500 or 502. *)
Lemma POST_response_shape (rq : Completion JsValue) :
  fst (POST srv rq) = {| status := 200; json := SuccessBody |}
  \/ exists m, json (fst (POST srv rq)) = ErrorBody m
               /\ (status (fst (POST srv rq)) = 400
                   \/ status (fst (POST srv rq)) = 500
                   \/ status (fst (POST srv rq)) = 502).
Proof.
  destruct (POST_cases rq)
    as [[_ H] | [(t & H) | [H | (k & f1 & f2 & f3 & f4 & f5 & f6 & _ & _ & _
                                   & _ & _ & H)]]];
    cbv zeta in H; rewrite H; cbn [fst].
  - right. eexists. split; [reflexivity | right; now left].
  - right. destruct t; eexists; (split; [reflexivity | right; now left]).
  - right. eexists. split; [reflexivity | now left].
  - destruct (afterRelay_shape (resend_emails_send srv k
                (mailFor f1 f2 f3 f4 f5 f6))) as [[E _] | (m & E & S)].
    + now left.
    + right. exists m. split; [exact E | tauto].
Qed.

End EndpointCases.


(** X15.  The endpoint answers 200 exactly when the relay was called
    and resolved without an error, and then the body is
    [{ success: true }]; every other response is an error body with
    status 400, 500 or 502. *)
Theorem POST_success_iff (srv : Route.Server)
    (request_json : Completion Route.JsValue) :
  (Route.status (fst (Route.POST srv request_json)) = 200
   <-> exists key mail,
         snd (Route.POST srv request_json)
         = [Route.ReadBody; Route.RelaySend key mail]
         /\ Route.resend_emails_send srv key mail
            = Normal {| Route.error := None |})
  /\ (fst (Route.POST srv request_json)
      = {| Route.status := 200; Route.json := Route.SuccessBody |}
      \/ exists m,
           Route.json (fst (Route.POST srv request_json)) = Route.ErrorBody m
           /\ (Route.status (fst (Route.POST srv request_json)) = 400
               \/ Route.status (fst (Route.POST srv request_json)) = 500
               \/ Route.status (fst (Route.POST srv request_json)) = 502)).
Proof.
  split; [| apply POST_response_shape]. split.
  - intros H200.
    destruct (POST_cases srv request_json)
      as [[_ H] | [(t & H) | [H | (k & f1 & f2 & f3 & f4 & f5 & f6 & _ & _
                                     & _ & _ & _ & H)]]];
      cbv zeta in H; rewrite H in H200 |- *; cbn [fst snd] in *;
      try discriminate H200.
    exists k, (Route.mailFor f1 f2 f3 f4 f5 f6). split; [reflexivity |].
    destruct (afterRelay_shape (Route.resend_emails_send srv k
                (Route.mailFor f1 f2 f3 f4 f5 f6)))
      as [[_ E] | (m & _ & [S | S])]; [exact E | |]; congruence.
  - intros (key & mail & Ht & Hs).
    assert (Hin : In (Route.RelaySend key mail)
                    (snd (Route.POST srv request_json)))
      by (rewrite Ht; right; now left).
    apply POST_relay_inv in Hin. destruct Hin as [_ Hp].
    rewrite Hp, Hs. reflexivity.
Qed.

(** X16.  With a key configured, a request whose body cannot be read
    is answered 500 with the message of the exception
    ([Unable to submit request.] when what was thrown is no [Error]),
    and the relay is not called; a relay call that throws is answered
    500 in the same way, not 502. *)
Theorem POST_exceptions (srv : Route.Server) (key : jsstring) :
  Route.resendApiKey srv = Some key ->
  (forall m,
     Route.POST srv (Throw (ErrorInstance m))
     = ({| Route.status := 500; Route.json := Route.ErrorBody m |},
        [Route.ReadBody]))
  /\ Route.POST srv (Throw NotAnError)
     = ({| Route.status := 500;
           Route.json := Route.ErrorBody (lit "Unable to submit request.") |},
        [Route.ReadBody])
  /\ (forall request_json k mail m,
        In (Route.RelaySend k mail) (snd (Route.POST srv request_json)) ->
        Route.resend_emails_send srv k mail = Throw (ErrorInstance m) ->
        fst (Route.POST srv request_json)
        = {| Route.status := 500; Route.json := Route.ErrorBody m |}).
Proof.
  intros Hk. repeat split.
  - intros m. unfold Route.POST, Route.POST_try. now rewrite Hk.
  - unfold Route.POST, Route.POST_try. now rewrite Hk.
  - intros rq k mail m Hin Hs. apply POST_relay_inv in Hin.
    destruct Hin as [_ Hp]. rewrite Hp, Hs. reflexivity.
Qed.

(** X17.  Whenever the relay is called, it is with the configured key
    and a mail from the fixed sender to the fixed recipient, whose
    reply-to address and whose name in the subject are non-empty and
    carry no leading or trailing white space. *)
Theorem relay_mail_wellformed (srv : Route.Server)
    (request_json : Completion Route.JsValue)
    (key : jsstring) (mail : Route.Email) :
  In (Route.RelaySend key mail) (snd (Route.POST srv request_json)) ->
  Route.resendApiKey srv = Some key
  /\ Route.from mail = lit "onboarding@resend.dev"
  /\ Route.to mail = [lit "timothytitenokspam@gmail.com"]
  /\ Route.replyTo mail <> []
  /\ trim (Route.replyTo mail) = Route.replyTo mail
  /\ exists fullName,
       Route.subject mail = lit "New Stratova call request: " ++ fullName
       /\ fullName <> [] /\ trim fullName = fullName.
Proof.
  intros Hin.
  destruct (POST_cases srv request_json)
    as [[_ H] | [(t & H) | [H | (k & f1 & f2 & f3 & f4 & f5 & f6 & Hk & N1
                                   & N3 & T1 & T3 & H)]]];
    cbv zeta in H; rewrite H in Hin; cbn [snd] in Hin.
  - contradiction.
  - destruct Hin as [Hin | []]. discriminate Hin.
  - destruct Hin as [Hin | []]. discriminate Hin.
  - destruct Hin as [Hin | [Hin | []]]; [discriminate Hin |].
    injection Hin as <- <-. cbn.
    repeat split; try assumption. now exists f1.
Qed.

(** X18.  A form the page calls ready is never answered 400 by a
    configured endpoint: the relay is called once, with the trimmed
    e-mail as reply-to and the trimmed name in the subject. *)
Theorem ready_form_accepted (srv : Route.Server) (key : jsstring)
    (v : Page.FormValues) :
  Route.resendApiKey srv = Some key ->
  Page.isFormReady v = true ->
  Route.status (fst (Route.POST srv (Normal (Wire.encode v)))) <> 400
  /\ exists mail,
       snd (Route.POST srv (Normal (Wire.encode v)))
       = [Route.ReadBody; Route.RelaySend key mail]
       /\ Route.replyTo mail = trim (Page.email v)
       /\ Route.subject mail
          = lit "New Stratova call request: " ++ trim (Page.fullName v).
Proof.
  intros Hk Hready.
  rewrite (POST_LeadPayload srv (Wire.encode v) Hk (isLeadPayload_encode v)).
  rewrite (isFormReady_not_missing _ Hready). cbn [fst snd].
  split; [apply afterRelay_status |].
  exists (Route.mailOf (Wire.encode v)). now repeat split.
Qed.

(** X19.  Whatever the endpoint answers to a form that passed
    validation, [handleSubmit] lowers the flag and either marks the
    form submitted with its fields reset (answer 200), or keeps the
    values and shows the error text of the answer ([Request failed]
    when that text is empty). *)
Theorem handleSubmit_against_endpoint (srv : Route.Server)
    (st : Page.LeadFormState) :
  Page.validateForm (Page.values st) = [] ->
  let r := fst (Route.POST srv (Normal (Wire.encode (Page.values st)))) in
  let st' := Page.handleSubmit (Wire.fetch srv) st in
  Page.isSubmitting st' = false
  /\ match Route.json r with
     | Route.SuccessBody =>
         Route.status r = 200
         /\ Page.submitted st' = true
         /\ Page.values st' = Page.initialFormValues
     | Route.ErrorBody m =>
         Route.status r <> 200
         /\ Page.submitted st' = Page.submitted st
         /\ Page.values st' = Page.values st
         /\ Page.submitError st'
            = Some (if truthy m then m else lit "Request failed")
     end.
Proof.
  intros Hvalid. cbv zeta. unfold Page.handleSubmit.
  rewrite (handleSubmit_begin_valid st Hvalid).
  split; [reflexivity |].
  unfold Wire.fetch. cbn [Page.body].
  destruct (POST_response_shape srv (Normal (Wire.encode (Page.values st))))
    as [E | (m & E & S)].
  - rewrite E. cbn. now repeat split.
  - destruct (fst (Route.POST srv (Normal (Wire.encode (Page.values st)))))
      as [status body]. cbn [Route.json Route.status] in *. subst body.
    assert (Hok : (200 <=? status) && (status <=? 299) = false)
      by (destruct S as [-> | [-> | ->]]; reflexivity).
    unfold Page.handleSubmit_settle, Wire.present.
    cbn [Page.ok Page.json Route.status Route.json]. rewrite Hok.
    cbn. destruct m as [| c m]; cbn; repeat split; try reflexivity;
      destruct S as [-> | [-> | ->]]; discriminate.
Qed.

(** ** [cn] *)

Section ClassNameFacts.

Import Widgets.

Lemma join_app (sep : jsstring) (a b : list jsstring) :
  a <> [] -> b <> [] ->
  join sep (a ++ b) = join sep a ++ sep ++ join sep b.
Proof.
  intros Ha Hb. induction a as [| x a IH]; [contradiction |].
  destruct a as [| y a].
  - destruct b as [| z b]; [contradiction | reflexivity].
  - change (join sep ((x :: y :: a) ++ b))
      with (x ++ sep ++ join sep ((y :: a) ++ b)).
    rewrite IH by discriminate.
    change (join sep (x :: y :: a)) with (x ++ sep ++ join sep (y :: a)).
    now rewrite <- !app_assoc.
Qed.

(** A joined list of non-empty strings is empty only if the list is. *)
Lemma join_nil (sep : jsstring) (l : list jsstring) :
  forallb truthy l = true -> join sep l = [] -> l = [].
Proof.
  destruct l as [| x [| y l]]; [reflexivity | |]; simpl.
  - rewrite andb_true_r. now destruct x.
  - destruct x; [discriminate | discriminate].
Qed.

Lemma names_truthy (classes : list ClassValue) :
  forallb truthy (List.map classText (filter Boolean classes)) = true.
Proof.
  induction classes as [| c l IH]; [reflexivity |].
  simpl. destruct c as [s | | |]; simpl; try exact IH.
  destruct (truthy s) eqn:E; [| exact IH]. simpl. now rewrite E, IH.
Qed.

Lemma cn_nil_iff (classes : list ClassValue) :
  cn classes = [] <-> filter Boolean classes = [].
Proof.
  unfold cn. split.
  - intros H. apply join_nil in H; [| apply names_truthy].
    now destruct (filter Boolean classes).
  - now intros ->.
Qed.

Lemma cn_pair (x y : jsstring) :
  cn [ClassName x; ClassName y]
  = if truthy x then (if truthy y then x ++ lit " " ++ y else x)
    else y.
Proof. destruct x, y; reflexivity. Qed.

Lemma cn_truthy (classes : list ClassValue) :
  truthy (cn classes) = negb (forallb (fun c => negb (Boolean c)) classes).
Proof.
  destruct (cn classes) as [| c t] eqn:E.
  - apply cn_nil_iff in E. simpl. symmetry. apply negb_false_iff.
    induction classes as [| c l IH]; [reflexivity |].
    simpl in E |- *. destruct (Boolean c); [discriminate E | now apply IH].
  - simpl. symmetry. apply negb_true_iff.
    destruct (forallb (fun c => negb (Boolean c)) classes) eqn:F;
      [| reflexivity].
    assert (N : filter Boolean classes = []).
    { clear E. induction classes as [| c0 l IH]; [reflexivity |].
      simpl in F |- *. apply andb_true_iff in F. destruct F as [F1 F2].
      apply negb_true_iff in F1. rewrite F1. now apply IH. }
    apply cn_nil_iff in N. congruence.
Qed.

Lemma filter_nil_forallb (classes : list ClassValue) :
  filter Boolean classes = []
  <-> forallb (fun c => negb (Boolean c)) classes = true.
Proof.
  induction classes as [| c l IH]; simpl; [tauto |].
  destruct (Boolean c); simpl; [split; discriminate | exact IH].
Qed.

End ClassNameFacts.

(** X20.  [cn] keeps every usable name, in order, and puts one space
    between two neighbours: it gives nothing for no argument, skips
    an argument that is [false], [null], [undefined] or the empty
    string, and for a usable name followed by more arguments gives the
    name alone when the rest yields nothing and the name, a space and
    the text of the rest otherwise.  So it can be nested: joining two
    lists at once or joining their two results gives the same text;
    dropping the skipped arguments first changes nothing; and the
    result is empty exactly when every argument is skipped. *)
Theorem cn_flattens (a b : list Widgets.ClassValue) :
  Widgets.cn (a ++ b)
  = Widgets.cn [Widgets.ClassName (Widgets.cn a);
                Widgets.ClassName (Widgets.cn b)]
  /\ Widgets.cn (filter Widgets.Boolean a) = Widgets.cn a
  /\ (Widgets.cn a = [] <-> forallb (fun c => negb (Widgets.Boolean c)) a = true)
  /\ Widgets.cn [] = []
  /\ (forall c, Widgets.Boolean c = false ->
                Widgets.cn (c :: a) = Widgets.cn a)
  /\ (forall s, s <> [] ->
                Widgets.cn (Widgets.ClassName s :: a)
                = if truthy (Widgets.cn a)
                  then s ++ lit " " ++ Widgets.cn a
                  else s).
Proof.
  split; [| split; [| split; [| split; [| split]]]].
  - rewrite cn_pair, !cn_truthy.
    rewrite <- (negb_involutive (forallb _ a)), <- (negb_involutive (forallb _ b)).
    rewrite <- !cn_truthy.
    unfold Widgets.cn at 1. rewrite filter_app, map_app.
    destruct (filter Widgets.Boolean a) as [| x fa] eqn:Ea.
    + assert (Ha : Widgets.cn a = [])
        by (unfold Widgets.cn; now rewrite Ea).
      rewrite Ha. reflexivity.
    + assert (Ha : truthy (Widgets.cn a) = true).
      { destruct (Widgets.cn a) eqn:E; [| reflexivity].
        apply cn_nil_iff in E. congruence. }
      rewrite Ha. cbn [negb].
      destruct (filter Widgets.Boolean b) as [| y fb] eqn:Eb.
      * assert (Hb : Widgets.cn b = [])
          by (unfold Widgets.cn; now rewrite Eb).
        rewrite Hb, app_nil_r. cbn. unfold Widgets.cn. now rewrite Ea.
      * assert (Hb : truthy (Widgets.cn b) = true).
        { destruct (Widgets.cn b) eqn:E; [| reflexivity].
          apply cn_nil_iff in E. congruence. }
        rewrite Hb. cbn [negb]. rewrite join_app by discriminate.
        unfold Widgets.cn. now rewrite Ea, Eb.
  - unfold Widgets.cn. f_equal. f_equal.
    induction a as [| c l IH]; [reflexivity |].
    simpl. destruct (Widgets.Boolean c) eqn:E; simpl; rewrite ?E, IH;
      reflexivity.
  - rewrite cn_nil_iff. apply filter_nil_forallb.
  - reflexivity.
  - intros c Hc. unfold Widgets.cn. cbn [filter]. now rewrite Hc.
  - intros s Hs.
    assert (Ht : truthy s = true) by (destruct s; [contradiction | reflexivity]).
    pose proof (cn_nil_iff a) as Hnil.
    unfold Widgets.cn in *. cbn [filter Widgets.Boolean]. rewrite Ht.
    cbn [List.map Widgets.classText].
    destruct (filter Widgets.Boolean a) as [| y fa]; [reflexivity |].
    cbn [List.map]. cbn [List.map] in Hnil.
    set (rest := join (lit " ")
                   (Widgets.classText y :: List.map Widgets.classText fa))
      in *.
    change (s ++ lit " " ++ rest = if truthy rest then s ++ lit " " ++ rest
                                   else s).
    destruct rest as [| c t] eqn:E; [| reflexivity].
    first [discriminate (proj1 Hnil eq_refl) | discriminate (proj1 Hnil E)].
Qed.

(** ** The touch glow *)

Section TouchFacts.

Variable number : Type.

(** A faded glow has a removal pending. *)
Local Abbreviation fading_covered st :=
  (forall g : Touch.Glow number,
     Touch.glow st = Some g -> Touch.visible g = false ->
     0 < Touch.timeouts st).

Lemma dispatch_fading_covered (st : Touch.State number)
    (e : Touch.Event number) :
  fading_covered st -> fading_covered (Touch.dispatch st e).
Proof.
  intros Inv g. destruct st as [gl mobile pending].
  destruct e as [m | touch | touch | | |]; simpl in *.
  - apply Inv.
  - destruct mobile; [| apply Inv].
    destruct touch as [[cx cy] |]; simpl; [| apply Inv].
    intros H. injection H as <-. discriminate.
  - destruct mobile; [| apply Inv].
    destruct touch as [[cx cy] |]; simpl; [| apply Inv].
    destruct gl as [prev |]; [| discriminate].
    intros H. injection H as <-. simpl. now apply (Inv prev).
  - destruct mobile; [| apply Inv]. simpl. intros _ _. lia.
  - destruct mobile; [| apply Inv]. simpl. discriminate.
  - destruct pending as [| n]; [apply Inv |]. simpl. discriminate.
Qed.

Lemma run_fading_covered (events : list (Touch.Event number)) :
  fading_covered (Touch.run events).
Proof.
  unfold Touch.run.
  assert (Hgen : forall st0, fading_covered st0 ->
            fading_covered (fold_left (@Touch.dispatch number) events st0)).
  { induction events as [| e es IH]; intros st0 Inv; [exact Inv |].
    simpl. apply IH. now apply dispatch_fading_covered. }
  apply Hgen. intros g H. discriminate H.
Qed.

End TouchFacts.

(** X21.  In [MobileTouchEffect], whatever the sequence of media
    changes, touches and timer callbacks, a glow that has been faded
    out always has a removal pending, and a move alone never creates a
    glow or changes whether it is visible. *)
Theorem faded_glow_is_removed (number : Type)
    (events : list (Touch.Event number)) :
  let st := Touch.run events in
  (forall g, Touch.glow st = Some g -> Touch.visible g = false ->
             0 < Touch.timeouts st)
  /\ (forall touch,
        option_map (@Touch.visible number)
          (Touch.glow (Touch.dispatch st (Touch.TouchMove touch)))
        = option_map (@Touch.visible number) (Touch.glow st)).
Proof.
  cbv zeta. split.
  - apply run_fading_covered.
  - intros [[cx cy] |]; simpl;
      destruct (Touch.isMobile (Touch.run events)); simpl; try reflexivity.
    now destruct (Touch.glow (Touch.run events)).
Qed.


(** ** The properties above on the sample inputs *)

Lemma pending_reachable : Page.reachable Examples.pending.
Proof.
  eapply Page.reachable_step; [| apply Page.step_submit; reflexivity].
  repeat (eapply Page.reachable_step;
          [| apply Page.step_change; reflexivity]).
  apply Page.reachable_init.
Qed.

Lemma answered_reachable : Page.reachable Samples.answered.
Proof.
  eapply Page.reachable_step; [apply pending_reachable |].
  apply Page.step_settle. apply Nat.lt_0_1.
Qed.

(** C8, as stated, fails on the success outcome: once the pending
    request of a submitted form has been answered 200, the flag is
    down but the form is marked submitted, its fields are empty, and
    no submit is offered; it has not returned to a submittable
    state. *)
Lemma submit_success_counterexample :
  Page.reachable Samples.answered
  /\ Page.isSubmitting (Page.form Samples.answered) = false
  /\ Page.submitted (Page.form Samples.answered) = true
  /\ Page.isFormReady (Page.values (Page.form Samples.answered)) = false
  /\ Page.submitOffered (Page.form Samples.answered) = false.
Proof. split; [exact answered_reachable | repeat split; reflexivity]. Qed.

Lemma validation_agrees_with_readiness_witness :
  Page.validateForm Examples.readyLead = []
  <-> Page.isFormReady Examples.readyLead = true.
Proof.
  apply (@validation_agrees_with_readiness Examples.readyLead).
  reflexivity.
Defined.

Lemma stored_phone_masked_witness :
  Page.formatPhoneNumber (lit "(555) 123-4567") = lit "(555) 123-4567"
  /\ length (lit "(555) 123-4567") <= 14.
Proof.
  destruct (stored_phone_masked pending_reachable) as (Hfix & _ & _ & Hlen).
  split; [exact Hfix | exact Hlen].
Defined.

Lemma digit_keystroke_inserts_witness :
  isDigit 52 = true
  /\ Page.getPhoneDigits (Page.formatPhoneNumber (lit "(555) 1234"))
     = lit "5551234".
Proof.
  apply (@digit_keystroke_inserts Samples.sixDigits Samples.keyFour
           52%N (lit "(555) 123") []); reflexivity.
Defined.

Lemma handleSubmit_invalid_witness :
  snd (Page.handleSubmit_begin Page.initialState) = None
  /\ Page.handleSubmit Samples.unreachableFetch Page.initialState
     = {| Page.values := Page.initialFormValues;
          Page.errors := Page.validateForm Page.initialFormValues;
          Page.isSubmitting := false;
          Page.submitted := false;
          Page.submitError := None |}.
Proof.
  apply (@handleSubmit_invalid Samples.unreachableFetch Page.initialState).
  discriminate.
Defined.

Lemma submitted_terminal_witness :
  Page.values (Page.form Samples.answered) = Page.initialFormValues
  /\ Page.inflight Samples.answered = 0
  /\ Page.isSubmitting (Page.form Samples.answered) = false
  /\ forall ui', ~ Page.step Samples.answered ui'.
Proof.
  apply (submitted_terminal answered_reachable). reflexivity.
Defined.

Lemma POST_exceptions_witness :
  Route.POST (Examples.server Examples.relayOk)
    (Throw (ErrorInstance (lit "Unexpected token < in JSON at position 0")))
  = ({| Route.status := 500;
        Route.json :=
          Route.ErrorBody (lit "Unexpected token < in JSON at position 0") |},
     [Route.ReadBody]).
Proof.
  destruct (@POST_exceptions (Examples.server Examples.relayOk)
              (lit "re_server_key") eq_refl) as (H & _ & _).
  apply H.
Defined.

Lemma relay_mail_wellformed_witness :
  Route.replyTo (Route.mailOf (Wire.encode Examples.readyLead))
  = lit "ann@example.com"
  /\ trim (lit "ann@example.com") = lit "ann@example.com".
Proof.
  destruct (@relay_mail_wellformed (Examples.server Examples.relayOk)
              (Normal (Wire.encode Examples.readyLead))
              (lit "re_server_key")
              (Route.mailOf (Wire.encode Examples.readyLead)))
    as (_ & _ & _ & _ & Htrim & _).
  - right. left. reflexivity.
  - split; [reflexivity | exact Htrim].
Defined.

Lemma ready_form_accepted_witness :
  Route.status
    (fst (Route.POST
            (Examples.server
               (Examples.relayFails (Route.JString (lit "quota exceeded"))))
            (Normal (Wire.encode Examples.readyLead)))) <> 400.
Proof.
  destruct (@ready_form_accepted
              (Examples.server
                 (Examples.relayFails (Route.JString (lit "quota exceeded"))))
              (lit "re_server_key") Examples.readyLead eq_refl eq_refl)
    as [H _].
  exact H.
Defined.

Lemma handleSubmit_against_endpoint_witness :
  Page.submitError
    (Page.handleSubmit (Wire.fetch Examples.bareServer) Examples.readyState)
  = Some (lit "Email service is not configured. Set RESEND_API_KEY in your server environment.")
  /\ Page.values
       (Page.handleSubmit (Wire.fetch Examples.bareServer)
          Examples.readyState)
     = Examples.readyLead.
Proof.
  destruct (@handleSubmit_against_endpoint Examples.bareServer
              Examples.readyState eq_refl) as (_ & _ & _ & Hv & He).
  split; [exact He | exact Hv].
Defined.

(** X22.  While a request is in flight the form shows no error: in
    every reachable state with [isSubmitting] set, no field has an
    error, there is no submit error, and the form is not yet marked
    submitted. *)
Theorem in_flight_shows_no_error (ui : Page.UI) :
  Page.reachable ui ->
  Page.isSubmitting (Page.form ui) = true ->
  Page.submitError (Page.form ui) = None
  /\ (forall k, Page.obj_get k (Page.errors (Page.form ui)) = None)
  /\ Page.submitted (Page.form ui) = false.
Proof.
  induction 1 as [| ui ui' R IH S]; [discriminate |].
  destruct S as [key value ui Hs | ui Hoff | o ui Hpos].
  - cbn. intros Hflag. destruct (IH Hflag) as (_ & He & _).
    repeat split; [| exact Hs]. intros k.
    destruct (Page.FieldKey_eqb key k) eqn:E.
    + apply FieldKey_eqb_eq in E. subst k. apply obj_get_set_same.
    + rewrite (@obj_get_set_other key k None _ E). apply He.
  - unfold Page.submitOffered in Hoff.
    apply andb_true_iff in Hoff. destruct Hoff as [Hs Hd].
    apply negb_true_iff in Hs. apply negb_true_iff in Hd.
    unfold Page.submitDisabled in Hd. apply orb_false_iff in Hd.
    destruct Hd as [Hdown _].
    unfold Page.onSubmit, Page.handleSubmit_begin. cbn [Page.form].
    destruct (Page.validateForm (Page.values (Page.form ui))); cbn.
    + intros _. now repeat split.
    + intros Hflag. congruence.
  - cbn. discriminate.
Qed.

Lemma in_flight_shows_no_error_witness :
  Page.submitError (Page.form Examples.pending) = None
  /\ Page.submitted (Page.form Examples.pending) = false.
Proof.
  destruct (in_flight_shows_no_error pending_reachable eq_refl)
    as (He & _ & Hs).
  split; [exact He | exact Hs].
Defined.
